(** * first-node: the task routes, their validation middleware and the Task model

    A shallow embedding of
      - src/models/task.js          (the Mongoose schema of a task),
      - src/middlewares/validate.js (validateTask, the Joi schema),
      - src/routes/taskRoutes.js    (the six route handlers),
    followed by the properties of the handlers.

    Layout: [JS] holds the fragment of JavaScript the handlers rely on
    (numbers as doubles, coercions, parseInt, trim, thrown errors); [Store]
    the collection of tasks; [Mongoose] the operations the handlers call;
    [Validate] the validateTask middleware; [Routes] the handlers.

    Handlers run after authenticateToken has accepted the request, so a
    request carries the caller's [req.user.userId].  console.log calls are
    left out: they write to the process output only. *)

From Stdlib Require Import Bool List String Ascii ZArith NArith QArith Qround Qpower.
From Stdlib Require Import Lia Lqa.
From Stdlib Require Qcanon.
From Stdlib Require Import Sorted.
Import ListNotations.

Local Open Scope string_scope.
Local Open Scope Z_scope.

(* ================================================================== *)
(** ** JavaScript values used by the handlers *)
(* ================================================================== *)

Module JS.

(** Numbers are IEEE 754 doubles.  A finite one is kept as the rational it
    stands for, in lowest terms; an operation computes the exact result and
    rounds it to the nearest double, a tie going to the even one ([round53]).
    Negative zero is identified with zero: the two differ only in the sign of
    an infinite quotient, and [json_number] writes every number that is not
    finite as null. *)
Inductive num : Type :=
| NaN
| PInf
| NInf
| Fin (q : Q).

Definition pow2 (e : Z) : Q := Qpower (2 # 1) e.

(** The exponent of a positive rational: the [e] with 2^e <= q < 2^(e+1). *)
Definition floor_log2 (q : Q) : Z :=
  let e0 := Z.log2 (Qnum q) - Z.log2 (Zpos (Qden q)) in
  if Qle_bool (pow2 e0) q then e0 else e0 - 1.

(** The nearest integer, a tie going to the even one. *)
Definition round_half_even (m : Q) : Z :=
  let f := Qfloor m in
  match (m - inject_Z f ?= 1 # 2)%Q with
  | Lt => f
  | Gt => f + 1
  | Eq => if Z.even f then f else f + 1
  end.

(** A positive rational to the nearest double: 53 bits, of which the last
    weighs no less than 2^-1074, and an infinity from 2^1024 on. *)
Definition round_pos (q : Q) : num :=
  let e := Z.max (floor_log2 q - 52) (-1074) in
  let v := (inject_Z (round_half_even (q / pow2 e)) * pow2 e)%Q in
  if (Z.ltb 970 e && Qle_bool (pow2 1024) v)%bool then PInf else Fin (Qred v).

(** [- a] *)
Definition neg (a : num) : num :=
  match a with
  | NaN => NaN
  | PInf => NInf
  | NInf => PInf
  | Fin q => Fin (Qred (- q))
  end.

(** The double nearest to a rational. *)
Definition round53 (q : Q) : num :=
  let q := Qred q in
  match Qnum q with
  | Z0 => Fin 0
  | Zpos _ => round_pos q
  | Zneg _ => neg (round_pos (- q))
  end.

(** The number that an integer literal, or a count, stands for. *)
Definition of_Z (z : Z) : num := round53 (inject_Z z).

Inductive sign : Type := Neg | Zero | Pos.

Definition sign_of (q : Q) : sign :=
  match Qnum q with
  | Z0 => Zero
  | Zpos _ => Pos
  | Zneg _ => Neg
  end.

Definition inf_of (s : sign) : num :=
  match s with
  | Neg => NInf
  | Zero => NaN
  | Pos => PInf
  end.

Definition sign_mul (a b : sign) : sign :=
  match a, b with
  | Zero, _ | _, Zero => Zero
  | Pos, Pos | Neg, Neg => Pos
  | _, _ => Neg
  end.

Definition num_sign (n : num) : option sign :=
  match n with
  | NaN => None
  | PInf => Some Pos
  | NInf => Some Neg
  | Fin q => Some (sign_of q)
  end.

(** [a - b] *)
Definition sub (a b : num) : num :=
  match a, b with
  | NaN, _ | _, NaN => NaN
  | PInf, PInf | NInf, NInf => NaN
  | PInf, _ | _, NInf => PInf
  | NInf, _ | _, PInf => NInf
  | Fin x, Fin y => round53 (x - y)
  end.

(** [a * b] *)
Definition mul (a b : num) : num :=
  match a, b with
  | Fin x, Fin y => round53 (x * y)
  | _, _ =>
      match num_sign a, num_sign b with
      | Some s, Some t => inf_of (sign_mul s t)
      | _, _ => NaN
      end
  end.

(** [a / b] *)
Definition div (a b : num) : num :=
  match a, b with
  | NaN, _ | _, NaN => NaN
  | Fin x, Fin y =>
      match sign_of y with
      | Zero => inf_of (sign_of x)
      | _ => round53 (x / y)
      end
  | Fin _, _ => Fin 0
  | _, Fin y =>
      match sign_of y, a with
      | Neg, PInf => NInf
      | Neg, _ => PInf
      | _, _ => a
      end
  | _, _ => NaN
  end.

(** [Math.ceil]; the ceiling of a double is a double. *)
Definition Math_ceil (a : num) : num :=
  match a with
  | Fin q => Fin (inject_Z (Qceiling q))
  | _ => a
  end.

(** What [JSON.stringify] writes for a number: null unless it is finite. *)
Definition json_number (a : num) : option Q :=
  match a with
  | Fin q => Some q
  | _ => None
  end.

(** *** Strings *)

(** A string is the sequence of the bytes of its UTF-8 encoding.  The white
    space of ECMAScript (WhiteSpace and LineTerminator) takes one, two or
    three bytes. *)

(** U+0009 to U+000D and U+0020 *)
Definition is_space (c : ascii) : bool :=
  let n := nat_of_ascii c in
  (Nat.eqb n 32 || (Nat.leb 9 n && Nat.leb n 13))%bool.

(** U+00A0 *)
Definition is_space2 (a b : ascii) : bool :=
  (Nat.eqb (nat_of_ascii a) 194 && Nat.eqb (nat_of_ascii b) 160)%bool.

(** U+1680, U+2000 to U+200A, U+2028, U+2029, U+202F, U+205F, U+3000 and
    U+FEFF *)
Definition is_space3 (a b c : ascii) : bool :=
  let x := nat_of_ascii a in
  let y := nat_of_ascii b in
  let z := nat_of_ascii c in
  (Nat.eqb x 225 && (Nat.eqb y 154 && Nat.eqb z 128)
   || Nat.eqb x 226
      && (Nat.eqb y 128
          && (Nat.leb 128 z && Nat.leb z 138
              || Nat.eqb z 168 || Nat.eqb z 169 || Nat.eqb z 175)
          || Nat.eqb y 129 && Nat.eqb z 159)
   || Nat.eqb x 227 && (Nat.eqb y 128 && Nat.eqb z 128)
   || Nat.eqb x 239 && (Nat.eqb y 187 && Nat.eqb z 191))%bool.

Fixpoint trimStart (s : string) : string :=
  match s with
  | EmptyString => EmptyString
  | String a s1 =>
      if is_space a then trimStart s1
      else
        match s1 with
        | EmptyString => s
        | String b s2 =>
            if is_space2 a b then trimStart s2
            else
              match s2 with
              | EmptyString => s
              | String c s3 => if is_space3 a b c then trimStart s3 else s
              end
        end
  end.

(** The text is cut where all that follows is white space. *)
Fixpoint trimEnd (s : string) : string :=
  match s with
  | EmptyString => EmptyString
  | String a s1 =>
      if String.eqb (trimStart s) EmptyString then EmptyString
      else String a (trimEnd s1)
  end.

(** [String.prototype.trim] *)
Definition trim (s : string) : string := trimEnd (trimStart s).

Definition digit (c : ascii) : option Z :=
  let n := nat_of_ascii c in
  if (Nat.leb 48 n && Nat.leb n 57)%bool then Some (Z.of_nat (n - 48)) else None.

Definition hex_digit (c : ascii) : option Z :=
  let n := nat_of_ascii c in
  if (Nat.leb 48 n && Nat.leb n 57)%bool then Some (Z.of_nat (n - 48))
  else if (Nat.leb 97 n && Nat.leb n 102)%bool then Some (Z.of_nat (n - 87))
  else if (Nat.leb 65 n && Nat.leb n 70)%bool then Some (Z.of_nat (n - 55))
  else None.

Definition octal_digit (c : ascii) : option Z :=
  let n := nat_of_ascii c in
  if (Nat.leb 48 n && Nat.leb n 55)%bool then Some (Z.of_nat (n - 48)) else None.

Definition binary_digit (c : ascii) : option Z :=
  let n := nat_of_ascii c in
  if (Nat.leb 48 n && Nat.leb n 49)%bool then Some (Z.of_nat (n - 48)) else None.

(** The value of the longest prefix of [s] made of digits in the given radix,
    continuing from [acc]; [None] when no digit has been read. *)
Fixpoint digit_prefix (radix : Z) (dv : ascii -> option Z) (s : string)
    (acc : option Z) : option Z :=
  match s with
  | EmptyString => acc
  | String c s' =>
      match dv c with
      | Some d =>
          digit_prefix radix dv s'
            (Some (radix * match acc with Some a => a | None => 0 end + d))
      | None => acc
      end
  end.

(** The value of [s] when all of it is digits in the given radix, at least
    one. *)
Fixpoint digits_only (radix : Z) (dv : ascii -> option Z) (s : string)
    (acc : option Z) : option Z :=
  match s with
  | EmptyString => acc
  | String c s' =>
      match dv c with
      | Some d =>
          digits_only radix dv s'
            (Some (radix * match acc with Some a => a | None => 0 end + d))
      | None => None
      end
  end.

(** The value of [s] when all of it is decimal digits, at least one. *)
Fixpoint all_digits (s : string) (acc : option Z) : option Z :=
  match s with
  | EmptyString => acc
  | String c s' =>
      match digit c with
      | Some d =>
          all_digits s' (Some (10 * match acc with Some a => a | None => 0 end + d))
      | None => None
      end
  end.

Definition num_of_option (o : option Z) : num :=
  match o with
  | Some z => of_Z z
  | None => NaN
  end.

(** The integer written by a signed decimal numeral. *)
Definition numeral (t : string) : option Z :=
  match t with
  | EmptyString => None
  | String c r =>
      if Ascii.eqb c "+" then all_digits r None
      else if Ascii.eqb c "-" then option_map Z.opp (all_digits r None)
      else all_digits t None
  end.

(** The leading decimal digits of [s]: their value continuing from [acc],
    their count continuing from [n], and the text after them. *)
Fixpoint digits_run (s : string) (acc : Z) (n : nat) : Z * nat * string :=
  match s with
  | EmptyString => (acc, n, s)
  | String c s' =>
      match digit c with
      | Some d => digits_run s' (10 * acc + d) (S n)
      | None => (acc, n, s)
      end
  end.

(** An optional ExponentPart that ends the text: e or E, a sign, digits. *)
Definition exponent_part (s : string) : option Z :=
  match s with
  | EmptyString => Some 0
  | String c r =>
      if (Ascii.eqb c "e" || Ascii.eqb c "E")%bool then
        let '(sgn, r') :=
          match r with
          | String x r1 =>
              if Ascii.eqb x "+" then (1, r1)
              else if Ascii.eqb x "-" then (-1, r1)
              else (1, r)
          | EmptyString => (1, r)
          end in
        match digits_run r' 0 0 with
        | (v, S _, EmptyString) => Some (sgn * v)
        | _ => None
        end
      else None
  end.

(** The value of a StrUnsignedDecimalLiteral other than Infinity: digits, a
    point and digits, an exponent, with a digit on one side of the point at
    least. *)
Definition decimal_literal (t : string) : option Q :=
  let '(i, ni, r) := digits_run t 0 0 in
  let '(f, nf, r') :=
    match r with
    | String c r1 => if Ascii.eqb c "." then digits_run r1 0 0 else (0, 0%nat, r)
    | EmptyString => (0, 0%nat, r)
    end in
  match (ni + nf)%nat, exponent_part r' with
  | S _, Some e =>
      Some (inject_Z (i * 10 ^ Z.of_nat nf + f) * Qpower (10 # 1) (e - Z.of_nat nf))%Q
  | _, _ => None
  end.

(** The value of a NonDecimalIntegerLiteral: 0x, 0o or 0b and digits. *)
Definition non_decimal (t : string) : option Z :=
  match t with
  | String c (String x r) =>
      if Ascii.eqb c "0" then
        if (Ascii.eqb x "x" || Ascii.eqb x "X")%bool then digits_only 16 hex_digit r None
        else if (Ascii.eqb x "o" || Ascii.eqb x "O")%bool
             then digits_only 8 octal_digit r None
        else if (Ascii.eqb x "b" || Ascii.eqb x "B")%bool
             then digits_only 2 binary_digit r None
        else None
      else None
  | _ => None
  end.

Definition unsigned_MV (t : string) : num :=
  if String.eqb t "Infinity" then PInf
  else
    match decimal_literal t with
    | Some q => Fin q
    | None => NaN
    end.

(** The mathematical value of a StrNumericLiteral, not yet rounded; NaN for
    a text that is none. *)
Definition MV (t : string) : num :=
  match non_decimal t with
  | Some z => Fin (inject_Z z)
  | None =>
      match t with
      | EmptyString => NaN
      | String c r =>
          if Ascii.eqb c "+" then unsigned_MV r
          else if Ascii.eqb c "-" then neg (unsigned_MV r)
          else unsigned_MV t
      end
  end.

Definition round (a : num) : num :=
  match a with
  | Fin q => round53 q
  | _ => a
  end.

(** ToNumber on a string: white space around the literal is dropped, and the
    empty string is 0. *)
Definition StringToNumber (s : string) : num :=
  match trim s with
  | EmptyString => of_Z 0
  | t => round (MV t)
  end.

Definition unsigned_prefix (s : string) : option Z :=
  match s with
  | String c (String x r) =>
      if (Ascii.eqb c "0" && (Ascii.eqb x "x" || Ascii.eqb x "X"))%bool
      then digit_prefix 16 hex_digit r None
      else digit_prefix 10 digit s None
  | _ => digit_prefix 10 digit s None
  end.

(** [parseInt(s)] with no radix argument: leading white space and a sign,
    then the longest run of digits, hexadecimal after 0x; the integer they
    write is rounded to a number. *)
Definition parseInt_string (s : string) : num :=
  match trimStart s with
  | EmptyString => NaN
  | String c r =>
      if Ascii.eqb c "+" then num_of_option (unsigned_prefix r)
      else if Ascii.eqb c "-" then num_of_option (option_map Z.opp (unsigned_prefix r))
      else num_of_option (unsigned_prefix (String c r))
  end.

(** *** Values read from [req.query] and their defaults *)

Inductive value : Type :=
| VUndef
| VNum (n : num)
| VStr (s : string).

(** A destructuring default [x = d] applies to undefined only. *)
Definition default (v d : value) : value :=
  match v with
  | VUndef => d
  | _ => v
  end.

Definition of_query (o : option string) : value :=
  match o with
  | Some s => VStr s
  | None => VUndef
  end.

Definition truthy (v : value) : bool :=
  match v with
  | VUndef => false
  | VNum NaN => false
  | VNum (Fin q) => match sign_of q with Zero => false | _ => true end
  | VNum _ => true
  | VStr s => negb (String.eqb s EmptyString)
  end.

Definition ToNumber (v : value) : num :=
  match v with
  | VUndef => NaN
  | VNum n => n
  | VStr s => StringToNumber s
  end.

(** [parseInt(v)].  A number is first written out: for 0 and for a number
    from 1e-6 to below 1e21 in size the text is decimal digits, with a
    fraction if the number has one, and the digits before the point are the
    number truncated.  The handlers pass a number only as the default of
    page or of limit, 1 or 10. *)
Definition parseInt (v : value) : num :=
  match v with
  | VUndef => NaN
  | VStr s => parseInt_string s
  | VNum (Fin q) => of_Z (Z.quot (Qnum q) (Zpos (Qden q)))
  | VNum _ => NaN
  end.

(** *** Values of a parsed JSON body *)

(** A number travels as the text JavaScript prints for it, an array or a
    nested object as its text: the schemas only ask whether a value is a
    string, and which. *)
Inductive json : Type :=
| JNull
| JBool (b : bool)
| JNum (text : string)
| JStr (s : string)
| JOther (text : string).

(** The own properties of the parsed body, in insertion order. *)
Definition object : Type := list (string * json).

(** [obj[key]]; [None] is undefined. *)
Fixpoint prop (key : string) (obj : object) : option json :=
  match obj with
  | [] => None
  | (k, v) :: obj' => if String.eqb k key then Some v else prop key obj'
  end.

(** *** Thrown errors *)

Inductive Exn : Type :=
| ReferenceError (message : string)
| TypeError (message : string)
| CastError (kind value path : string)
| ValidationError (errors : list (string * string))
| MongoServerError (message : string).

(** The double quote character, for the messages that quote a value. *)
Definition dq : string := String (ascii_of_nat 34) EmptyString.

Definition quoted (s : string) : string := dq ++ s ++ dq.

Fixpoint join (sep : string) (l : list string) : string :=
  match l with
  | [] => EmptyString
  | [x] => x
  | x :: l' => x ++ sep ++ join sep l'
  end.

(** [error.message].  The texts of the two ReferenceErrors are the engine's;
    those of the Mongoose and MongoDB errors only indicate the libraries'
    wording, and no property below depends on them. *)
Definition message (e : Exn) : string :=
  match e with
  | ReferenceError m => m
  | TypeError m => m
  | CastError kind v path =>
      "Cast to " ++ kind ++ " failed for value " ++ quoted v
        ++ " (type string) at path " ++ quoted path ++ " for model " ++ quoted "Task"
  | ValidationError errors =>
      "Task validation failed: "
        ++ join ", " (map (fun e => fst e ++ ": " ++ snd e) errors)
  | MongoServerError m => m
  end.

End JS.

(* ================================================================== *)
(** ** The Task model (src/models/task.js) and the collection behind it *)
(* ================================================================== *)

Module Store.
Import JS.

(** An ObjectId is its 96-bit number; in requests it travels as 24
    hexadecimal digits. *)
Definition ObjectId : Type := N.

Fixpoint all_hex (s : string) (acc : Z) : option Z :=
  match s with
  | EmptyString => Some acc
  | String c s' =>
      match hex_digit c with
      | Some d => all_hex s' (16 * acc + d)
      | None => None
      end
  end.

(** Mongoose's cast of a string to an ObjectId: 24 hexadecimal digits, in
    either case. *)
Definition castObjectId (s : string) : option ObjectId :=
  if Nat.eqb (String.length s) 24 then option_map Z.to_N (all_hex s 0) else None.

(** [mongoose.Types.ObjectId.isValid] on a string. *)
Definition ObjectId_isValid (s : string) : bool :=
  match castObjectId s with
  | Some _ => true
  | None => false
  end.

(** A stored task: the paths of taskSchema, [_id], and the two timestamps
    that [timestamps: true] adds.  The required paths [title] and [user] are
    always there; the other paths may be null. *)
Record Task : Type := mkTask {
  _id : ObjectId;
  title : string;
  description : option string;
  status : option string;
  user : ObjectId;
  image : option string;
  createdAt : Z;
  updatedAt : Z
}.

(** status: enum and default *)
Definition status_enum : list string := ["Pending"; "In Progress"; "Completed"].
Definition status_default : string := "Pending".

Definition in_enum (s : string) : bool := existsb (String.eqb s) status_enum.

(** The collection, the source of fresh ObjectIds and the clock that the
    timestamps read. *)
Record Db : Type := mkDb {
  tasks : list Task;
  next_id : ObjectId;
  now : Z
}.

Definition with_tasks (db : Db) (l : list Task) : Db :=
  mkDb l (next_id db) (now db).

(** *** Computations over the collection that may throw *)

Inductive Result (A : Type) : Type :=
| Ok (a : A)
| Throw (e : Exn).
Arguments Ok {A} a.
Arguments Throw {A} e.

Definition M (A : Type) : Type := Db -> Result A * Db.

Definition ret {A} (a : A) : M A := fun db => (Ok a, db).

Definition throw {A} (e : Exn) : M A := fun db => (Throw e, db).

Definition bind {A B} (c : M A) (k : A -> M B) : M B :=
  fun db =>
    match c db with
    | (Ok a, db') => k a db'
    | (Throw e, db') => (Throw e, db')
    end.

(** [try { c } catch (error) { h error }] *)
Definition try_catch {A} (c : M A) (h : Exn -> M A) : M A :=
  fun db =>
    match c db with
    | (Ok a, db') => (Ok a, db')
    | (Throw e, db') => h e db'
    end.

Definition get_db : M Db := fun db => (Ok db, db).

Definition put_tasks (l : list Task) : M unit :=
  fun db => (Ok tt, with_tasks db l).

End Store.

Declare Scope js_scope.
Delimit Scope js_scope with js.
Notation "x <- c ;; k" := (Store.bind c (fun x => k))
  (at level 61, c at next level, right associativity) : js_scope.
Notation "c ;;; k" := (Store.bind c (fun _ => k))
  (at level 61, right associativity) : js_scope.

Local Open Scope js_scope.

(** MongoDB's regular expression matching, used by [$regex]: pattern,
    options, subject. *)
Class RegexEngine : Type :=
  regex_test : string -> string -> string -> bool.

Module Mongoose.
Import JS Store.

(** *** Queries *)

(** [{ path: { $regex: pattern, $options: options } }] *)
Inductive Clause : Type :=
| Regex (path pattern options : string).

(** The filter objects the list handler can build. *)
Record Filter : Type := mkFilter {
  f_user : string;
  f_status : option string;
  f_or : option (list Clause)
}.

Definition set_status (s : string) (f : Filter) : Filter :=
  mkFilter (f_user f) (Some s) (f_or f).

Definition set_or (cs : list Clause) (f : Filter) : Filter :=
  mkFilter (f_user f) (f_status f) (Some cs).

Definition string_path (path : string) (t : Task) : option string :=
  if String.eqb path "title" then Some (title t)
  else if String.eqb path "description" then description t
  else if String.eqb path "status" then status t
  else if String.eqb path "image" then image t
  else None.

Definition option_eqb (a b : option string) : bool :=
  match a, b with
  | Some x, Some y => String.eqb x y
  | None, None => true
  | _, _ => false
  end.

Section Matching.
Context {engine : RegexEngine}.

Definition clause_matches (c : Clause) (t : Task) : bool :=
  match c with
  | Regex path pattern options =>
      match string_path path t with
      | Some s => regex_test pattern options s
      | None => false
      end
  end.

(** Whether a task matches a filter whose [user] has been cast to [uid]. *)
Definition matches (uid : ObjectId) (f : Filter) (t : Task) : bool :=
  (N.eqb (user t) uid
   && match f_status f with
      | Some s => option_eqb (status t) (Some s)
      | None => true
      end
   && match f_or f with
      | Some cs => existsb (fun c => clause_matches c t) cs
      | None => true
      end)%bool.

End Matching.

(** *** Sorting *)

(** The values a sort compares, in BSON order of their types. *)
Inductive SortKey : Type :=
| KNull
| KStr (s : string)
| KOid (n : ObjectId)
| KDate (z : Z).

Definition key_rank (k : SortKey) : Z :=
  match k with
  | KNull => 0
  | KStr _ => 1
  | KOid _ => 2
  | KDate _ => 3
  end.

Definition key_compare (a b : SortKey) : comparison :=
  match a, b with
  | KStr x, KStr y => String.compare x y
  | KOid x, KOid y => N.compare x y
  | KDate x, KDate y => Z.compare x y
  | _, _ => Z.compare (key_rank a) (key_rank b)
  end.

Definition key_of_option (o : option string) : SortKey :=
  match o with
  | Some s => KStr s
  | None => KNull
  end.

Definition sort_key (path : string) (t : Task) : SortKey :=
  if String.eqb path "_id" then KOid (_id t)
  else if String.eqb path "user" then KOid (user t)
  else if String.eqb path "createdAt" then KDate (createdAt t)
  else if String.eqb path "updatedAt" then KDate (updatedAt t)
  else key_of_option (string_path path t).

(** [arg.split(' ')]: the pieces between single spaces, empty ones
    included; a string without a space is its one piece. *)
Fixpoint split_spaces (s : string) (cur : string) : list string :=
  match s with
  | EmptyString => [cur]
  | String c s' =>
      if Ascii.eqb c " " then cur :: split_spaces s' EmptyString
      else split_spaces s' (cur ++ String c EmptyString)
  end.

(** One property of a sort string: a path, descending when written with a
    leading minus sign. *)
Definition sort_property (w : string) : string * bool :=
  match w with
  | String "-" p => (p, true)
  | _ => (w, false)
  end.

(** The properties that [sort] passes over. *)
Definition special_properties : list string :=
  ["__proto__"; "constructor"; "prototype"].

(** [sort[property] = ascend]: a path that the object holds already keeps
    its place and takes the new direction. *)
Fixpoint assign (path : string) (desc : bool) (spec : list (string * bool))
  : list (string * bool) :=
  match spec with
  | [] => [(path, desc)]
  | (p, d) :: spec' =>
      if String.eqb p path then (p, desc) :: spec'
      else (p, d) :: assign path desc spec'
  end.

(** The sort object that [sort(arg)] builds from a string, in the order of
    its keys (a key that is an array index, which an object lists first, is
    no path of the schema). *)
Definition sort_spec (s : string) : list (string * bool) :=
  fold_left
    (fun spec w =>
       let '(p, desc) := sort_property w in
       if existsb (String.eqb p) special_properties then spec
       else assign p desc spec)
    (split_spaces s EmptyString) [].

Fixpoint spec_compare (spec : list (string * bool)) (a b : Task) : comparison :=
  match spec with
  | [] => Eq
  | (path, desc) :: spec' =>
      match key_compare (sort_key path a) (sort_key path b) with
      | Eq => spec_compare spec' a b
      | c => if desc then CompOpp c else c
      end
  end.

Definition task_leb (spec : list (string * bool)) (a b : Task) : bool :=
  match spec_compare spec a b with
  | Gt => false
  | _ => true
  end.

Fixpoint insert (spec : list (string * bool)) (x : Task) (l : list Task) : list Task :=
  match l with
  | [] => [x]
  | y :: l' => if task_leb spec x y then x :: l else y :: insert spec x l'
  end.

(** Tasks that compare equal keep the order of the collection here; the
    server promises no order among them. *)
Definition sort_tasks (spec : list (string * bool)) (l : list Task) : list Task :=
  fold_right (insert spec) [] l.

(** *** The query built by [Task.find(...).sort(...).skip(...).limit(...)] *)

Record Query : Type := mkQuery {
  conditions : Filter;
  o_sort : option value;
  o_skip : option num;
  o_limit : option num
}.

Definition Task_find (f : Filter) : Query := mkQuery f None None None.

Definition Query_sort (v : value) (q : Query) : Query :=
  mkQuery (conditions q) (Some v) (o_skip q) (o_limit q).

Definition Query_skip (n : num) (q : Query) : Query :=
  mkQuery (conditions q) (o_sort q) (Some n) (o_limit q).

Definition Query_limit (n : num) (q : Query) : Query :=
  mkQuery (conditions q) (o_sort q) (o_skip q) (Some n).

Definition lift {A} (r : Result A) : M A := fun db => (r, db).

Definition cast_id (path : string) (s : string) : Result ObjectId :=
  match castObjectId s with
  | Some oid => Ok oid
  | None => Throw (CastError "ObjectId" s path)
  end.

(** A string is a list of properties, none of them with an empty path; a
    missing sort argument leaves the order alone; anything else is
    refused. *)
Definition apply_sort (o : option value) (l : list Task) : Result (list Task) :=
  match o with
  | None => Ok l
  | Some v =>
      match v with
      | VStr s =>
          let spec := sort_spec s in
          if existsb (fun p => String.eqb (fst p) EmptyString) spec
          then Throw (TypeError ("Invalid field " ++ quoted EmptyString
                                   ++ " passed to sort()"))
          else Ok (sort_tasks spec l)
      | VUndef => Ok l
      | VNum _ =>
          Throw (TypeError
                   "Invalid sort() argument. Must be a string, object, array, or map.")
      end
  end.

(** The server reads the skip and the limit of a find command as 64-bit
    integers (BSONElement::safeNumberLong): NaN is 0, a fraction is cut off,
    and a number beyond the 64-bit integers is the nearest of them. *)
Definition safeNumberLong (n : num) : Z :=
  match n with
  | NaN => 0
  | PInf => 2 ^ 63 - 1
  | NInf => - 2 ^ 63
  | Fin q => Z.max (- 2 ^ 63) (Z.min (2 ^ 63 - 1) (Z.quot (Qnum q) (Zpos (Qden q))))
  end.

(** The server refuses a negative skip. *)
Definition apply_skip (o : option num) (l : list Task) : Result (list Task) :=
  match o with
  | None => Ok l
  | Some n =>
      let k := safeNumberLong n in
      if Z.leb 0 k then Ok (skipn (Z.to_nat k) l)
      else Throw (MongoServerError "BSON field 'skip' value must be >= 0")
  end.

(** The driver sends a negative limit as its opposite, to be answered in a
    single batch; for the server a limit of 0 is no limit. *)
Definition apply_limit (o : option num) (l : list Task) : Result (list Task) :=
  match o with
  | None => Ok l
  | Some n =>
      let k := safeNumberLong (match num_sign n with Some Neg => neg n | _ => n end) in
      Ok (if Z.eqb k 0 then l else firstn (Z.to_nat k) l)
  end.

Section Reads.
Context {engine : RegexEngine}.

(** [query.exec()] *)
Definition Query_exec (q : Query) : M (list Task) :=
  uid <- lift (cast_id "user" (f_user (conditions q))) ;;
  db <- get_db ;;
  sorted <- lift (apply_sort (o_sort q) (filter (matches uid (conditions q)) (tasks db))) ;;
  skipped <- lift (apply_skip (o_skip q) sorted) ;;
  lift (apply_limit (o_limit q) skipped).

(** [Task.countDocuments(filter)] *)
Definition Task_countDocuments (f : Filter) : M nat :=
  uid <- lift (cast_id "user" (f_user f)) ;;
  db <- get_db ;;
  ret (List.length (filter (matches uid f) (tasks db))).

End Reads.

(** *** Documents *)

(** The String schema type's cast of a value: null and undefined stay
    unset, numbers and booleans are written out, arrays and objects are
    refused. *)
Definition castString (path : string) (o : option json) : Result (option string) :=
  match o with
  | None | Some JNull => Ok None
  | Some (JStr s) => Ok (Some s)
  | Some (JNum text) => Ok (Some text)
  | Some (JBool b) => Ok (Some (if b then "true" else "false"))
  | Some (JOther text) => Throw (CastError "string" text path)
  end.

(** [trim: true] *)
Definition trimmed (r : Result (option string)) : Result (option string) :=
  match r with
  | Ok o => Ok (option_map trim o)
  | Throw e => Throw e
  end.

(** A document made by [new Task(...)]: a path whose value could not be cast
    keeps the cast error until validation. *)
Record Draft : Type := mkDraft {
  d_id : ObjectId;
  d_title : Result (option string);
  d_description : Result (option string);
  d_status : option string;
  d_user : Result ObjectId;
  d_image : option string
}.

(** [new Task({ title, description, user })] *)
Definition new_Task (title description : option json) (user : string) : M Draft :=
  fun db =>
    (Ok (mkDraft (next_id db)
                 (trimmed (castString "title" title))
                 (trimmed (castString "description" description))
                 (Some status_default)
                 (cast_id "user" user)
                 None),
     mkDb (tasks db) (N.succ (next_id db)) (now db)).

(** A document loaded from the collection remembers the values it was loaded
    with, next to its current ones. *)
Record Doc : Type := mkDoc {
  stored : Task;
  current : Task
}.

(** [task.image = path] *)
Definition set_image (path : string) (d : Doc) : Doc :=
  let t := current d in
  mkDoc (stored d)
        (mkTask (_id t) (title t) (description t) (status t) (user t) (Some path)
                (createdAt t) (updatedAt t)).

Definition required_title (o : option string) : list (string * string) :=
  match o with
  | Some (String _ _) => []
  | _ => [("title", "Title is required")]
  end.

Definition enum_status (o : option string) : list (string * string) :=
  match o with
  | Some s =>
      if in_enum s then []
      else [("status", "`" ++ s ++ "` is not a valid enum value for path `status`.")]
  | None => []
  end.

Definition cast_errors {A} (path : string) (r : Result A) : list (string * string) :=
  match r with
  | Ok _ => []
  | Throw e => [(path, message e)]
  end.

(** The validators of taskSchema, in the order of its paths. *)
Definition validate_draft (d : Draft) : list (string * string) :=
  match d_title d with
  | Ok o => required_title o
  | Throw e => [("title", message e)]
  end
  ++ cast_errors "description" (d_description d)
  ++ enum_status (d_status d)
  ++ cast_errors "user" (d_user d).

Definition validate_task (t : Task) : list (string * string) :=
  required_title (Some (title t)) ++ enum_status (status t).

Fixpoint replace_first (id : ObjectId) (t' : Task) (l : list Task) : list Task :=
  match l with
  | [] => []
  | t :: l' => if N.eqb (_id t) id then t' :: l' else t :: replace_first id t' l'
  end.

Fixpoint remove_first (id : ObjectId) (l : list Task) : list Task :=
  match l with
  | [] => []
  | t :: l' => if N.eqb (_id t) id then l' else t :: remove_first id l'
  end.

Definition find_by_id (id : ObjectId) (l : list Task) : option Task :=
  find (fun t => N.eqb (_id t) id) l.

Definition touch (t : Task) (time : Z) : Task :=
  mkTask (_id t) (title t) (description t) (status t) (user t) (image t)
         (createdAt t) time.

(** [task.save()] on a new document: validates it, then inserts it; the
    result is the saved document. *)
Definition save_new (d : Draft) : M Task :=
  match d_title d, d_description d, d_user d, validate_draft d with
  | Ok (Some ttl), Ok descr, Ok uid, [] =>
      db <- get_db ;;
      let t := mkTask (d_id d) ttl descr (d_status d) uid (d_image d)
                      (now db) (now db) in
      put_tasks (tasks db ++ [t]) ;;;
      ret t
  | _, _, _, errors => throw (ValidationError errors)
  end.

(** [task.save()] on a loaded document: validates it, then writes its
    modified paths and the time of the update; a document with nothing
    modified is left as it is.  The result is the document as it stands
    afterwards. *)
Definition save (d : Doc) : M Task :=
  let t := current d in
  match validate_task t with
  | [] =>
      if option_eqb (image (stored d)) (image t) then ret t
      else
        db <- get_db ;;
        let t' := touch t (now db) in
        put_tasks (replace_first (_id t) t' (tasks db)) ;;;
        ret t'
  | errors => throw (ValidationError errors)
  end.

(** [Task.findById(id)] *)
Definition Task_findById (id : string) : M (option Doc) :=
  oid <- lift (cast_id "_id" id) ;;
  db <- get_db ;;
  ret (option_map (fun t => mkDoc t t) (find_by_id oid (tasks db))).

(** One path of an update: undefined is dropped from the update, anything
    else is set. *)
Inductive Change : Type :=
| Keep
| Set_to (v : option string).

Definition cast_change (path : string) (trims : bool) (o : option json) : Result Change :=
  match o with
  | None => Ok Keep
  | Some _ =>
      match castString path o with
      | Ok v => Ok (Set_to (if trims then option_map trim v else v))
      | Throw e => Throw e
      end
  end.

Definition change_opt (c : Change) (old : option string) : option string :=
  match c with
  | Keep => old
  | Set_to v => v
  end.

Definition validate_update (ttl st : Change) : list (string * string) :=
  match ttl with
  | Keep => []
  | Set_to v => required_title v
  end
  ++ match st with
     | Keep => []
     | Set_to v => enum_status v
     end.

(** [Task.findByIdAndUpdate(id, { title, description, status },
                            { new: true, runValidators: true })] *)
Definition Task_findByIdAndUpdate (id : string) (ttl descr st : option json)
  : M (option Task) :=
  oid <- lift (cast_id "_id" id) ;;
  c_title <- lift (cast_change "title" true ttl) ;;
  c_descr <- lift (cast_change "description" true descr) ;;
  c_status <- lift (cast_change "status" false st) ;;
  match validate_update c_title c_status with
  | [] =>
      db <- get_db ;;
      match find_by_id oid (tasks db) with
      | None => ret None
      | Some t =>
          let t' :=
            mkTask (_id t)
                   (match c_title with
                    | Set_to (Some s) => s
                    | _ => title t
                    end)
                   (change_opt c_descr (description t))
                   (change_opt c_status (status t))
                   (user t) (image t) (createdAt t) (now db) in
          put_tasks (replace_first oid t' (tasks db)) ;;;
          ret (Some t')
      end
  | errors => throw (ValidationError errors)
  end.

(** [Task.findByIdAndDelete(id)] *)
Definition Task_findByIdAndDelete (id : string) : M (option Task) :=
  oid <- lift (cast_id "_id" id) ;;
  db <- get_db ;;
  match find_by_id oid (tasks db) with
  | None => ret None
  | Some t =>
      put_tasks (remove_first oid (tasks db)) ;;;
      ret (Some t)
  end.

End Mongoose.

(* ================================================================== *)
(** ** Requests and responses *)
(* ================================================================== *)

(** [req.query] of the list route *)
Record QueryString : Type := mkQueryString {
  q_search : option string;
  q_page : option string;
  q_limit : option string;
  q_sort : option string;
  q_status : option string
}.

(** [req.file], as the upload middleware leaves it *)
Record File : Type := mkFile {
  filename : string
}.

Record Request : Type := mkRequest {
  user_userId : string;        (* req.user.userId *)
  params_id : string;          (* req.params.id *)
  query : QueryString;         (* req.query *)
  body : JS.object;            (* req.body *)
  file : option File           (* req.file *)
}.

(** The JSON bodies the handlers send. *)
Inductive Body : Type :=
| TaskBody (task : Store.Task)
| ListBody (tasks : list Store.Task)
           (currentPage totalPages : option Q) (totalItems : nat)
| ErrorBody (error : string)
| MessageBody (message : string)
| UploadBody (message : string) (task : Store.Task).

Record Response : Type := mkResponse {
  res_status : Z;
  res_body : Body
}.

(* ================================================================== *)
(** ** validateTask (src/middlewares/validate.js) *)
(* ================================================================== *)

Module Validate.
Import JS Store.

(** [Joi.string().required()] with the message for 'any.required' *)
Definition joi_title (o : option json) : option string :=
  match o with
  | None => Some "Title is required"
  | Some (JStr EmptyString) => Some (quoted "title" ++ " is not allowed to be empty")
  | Some (JStr _) => None
  | Some _ => Some (quoted "title" ++ " must be a string")
  end.

(** [Joi.string().optional()] *)
Definition joi_description (o : option json) : option string :=
  match o with
  | None => None
  | Some (JStr EmptyString) => Some (quoted "description" ++ " is not allowed to be empty")
  | Some (JStr _) => None
  | Some _ => Some (quoted "description" ++ " must be a string")
  end.

(** [Joi.string().valid('Pending', 'In Progress', 'Completed').optional()] *)
Definition joi_status (o : option json) : option string :=
  match o with
  | None => None
  | Some v =>
      if match v with
         | JStr s => existsb (String.eqb s) ["Pending"; "In Progress"; "Completed"]
         | _ => false
         end
      then None
      else Some (quoted "status" ++ " must be one of [Pending, In Progress, Completed]")
  end.

(** A key the schema does not name is not allowed. *)
Fixpoint joi_unknown (obj : object) : option string :=
  match obj with
  | [] => None
  | (k, _) :: obj' =>
      if existsb (String.eqb k) ["title"; "description"; "status"]
      then joi_unknown obj'
      else Some (quoted k ++ " is not allowed")
  end.

Definition or_else (a b : option string) : option string :=
  match a with
  | Some _ => a
  | None => b
  end.

(** [schema.validate(req.body).error.details[0].message]: the keys of the
    schema in their order, then the keys it does not name. *)
Definition schema_validate (obj : object) : option string :=
  or_else (joi_title (prop "title" obj))
    (or_else (joi_description (prop "description" obj))
       (or_else (joi_status (prop "status" obj))
          (joi_unknown obj))).

Definition validateTask (req : Request) (next : M Response) : M Response :=
  match schema_validate (body req) with
  | Some error => ret (mkResponse 400 (ErrorBody error))
  | None => next
  end.

End Validate.

(* ================================================================== *)
(** ** The routes (src/routes/taskRoutes.js) *)
(* ================================================================== *)

Module Routes.
Import JS Store Mongoose Validate.

(** The names bound at the top of taskRoutes.js (lines 1 to 6), and the
    globals of the runtime the file uses. *)
Definition module_scope : list string :=
  ["express"; "Task"; "router"; "validateTask"; "authenticateToken"; "upload"].

Definition globals : list string :=
  ["require"; "module"; "console"; "parseInt"; "Math"].

(** Evaluating an identifier that is bound nowhere throws. *)
Definition resolve (name : string) : M unit :=
  if existsb (String.eqb name) (module_scope ++ globals) then ret tt
  else throw (ReferenceError (name ++ " is not defined")).

(** A [const] binding of a block: it exists from the start of the block, and
    is initialized when its declaration is reached. *)
Inductive binding (A : Type) : Type :=
| Uninitialized
| Initialized (a : A).
Arguments Uninitialized {A}.
Arguments Initialized {A} a.

(** Reading the binding [name]. *)
Definition read {A} (name : string) (b : binding A) : M A :=
  match b with
  | Uninitialized =>
      throw (ReferenceError ("Cannot access '" ++ name ++ "' before initialization"))
  | Initialized a => ret a
  end.

(** [name.member = ...]: reads the binding, then writes to the object. *)
Definition write_member {A} (name : string) (b : binding A) (set : A -> A)
  : M (binding A) :=
  a <- read name b ;;
  ret (Initialized (set a)).

(** [if (x) { ... }] on a value of the query string *)
Definition if_truthy {A} (o : option string) (k : string -> M A) (otherwise : M A) : M A :=
  match o with
  | Some s => if truthy (VStr s) then k s else otherwise
  | None => otherwise
  end.

(** [catch (error) { res.status(500).json({ error: error.message }); }] *)
Definition internal_error (error : Exn) : M Response :=
  ret (mkResponse 500 (ErrorBody (message error))).

(** POST /api/tasks (lines 43 to 52) *)
Definition post_api_tasks (req : Request) : M Response :=
  validateTask req
    (try_catch
       (let title := prop "title" (body req) in
        let description := prop "description" (body req) in
        task <- new_Task title description (user_userId req) ;;
        savedTask <- save_new task ;;
        ret (mkResponse 201 (TaskBody savedTask)))
       internal_error).

Section List.
Context {engine : RegexEngine}.

(** GET /api/tasks (lines 97 to 131) *)
Definition get_api_tasks (req : Request) : M Response :=
  try_catch
    (let search := q_search (query req) in
     let page := default (of_query (q_page (query req))) (VNum (of_Z 1)) in
     let limit := default (of_query (q_limit (query req))) (VNum (of_Z 10)) in
     let sort := default (of_query (q_sort (query req))) (VStr "createdAt") in
     let status := q_status (query req) in
     (* [filter] is declared on line 107 *)
     let filter : binding Filter := Uninitialized in
     filter <- if_truthy search
                 (fun search =>
                    write_member "filter" filter
                      (set_or [Regex "title" search "i";
                               Regex "description" search "i"]))
                 (ret filter) ;;
     let filter := Initialized (mkFilter (user_userId req) None None) in
     filter <- if_truthy status
                 (fun status => write_member "filter" filter (set_status status))
                 (ret filter) ;;
     filter <- read "filter" filter ;;
     tasks <- Query_exec
                (Query_limit (parseInt limit)
                   (Query_skip (mul (sub (ToNumber page) (of_Z 1)) (ToNumber limit))
                      (Query_sort sort
                         (Task_find filter)))) ;;
     total <- Task_countDocuments filter ;;
     ret (mkResponse 200
            (ListBody tasks
               (json_number (parseInt page))
               (json_number (Math_ceil (div (of_Z (Z.of_nat total)) (ToNumber limit))))
               total)))
    internal_error.

End List.

(** GET /api/tasks/:id (lines 158 to 172) *)
Definition get_api_tasks_id (req : Request) : M Response :=
  try_catch
    (let id := params_id req in
     resolve "mongoose" ;;;
     if negb (ObjectId_isValid id)
     then ret (mkResponse 400 (ErrorBody "Invalid task ID format"))
     else
       task <- Task_findById id ;;
       match task with
       | None => ret (mkResponse 404 (MessageBody "Task not found"))
       | Some task => ret (mkResponse 200 (TaskBody (current task)))
       end)
    internal_error.

(** PUT /api/tasks/:id (lines 210 to 226) *)
Definition put_api_tasks_id (req : Request) : M Response :=
  validateTask req
    (try_catch
       (let id := params_id req in
        let title := prop "title" (body req) in
        let description := prop "description" (body req) in
        let status := prop "status" (body req) in
        updatedTask <- Task_findByIdAndUpdate id title description status ;;
        match updatedTask with
        | None => ret (mkResponse 404 (MessageBody "Task not found"))
        | Some updatedTask => ret (mkResponse 200 (TaskBody updatedTask))
        end)
       internal_error).

(** DELETE /api/tasks/:id (lines 251 to 262) *)
Definition delete_api_tasks_id (req : Request) : M Response :=
  try_catch
    (let id := params_id req in
     deletedTask <- Task_findByIdAndDelete id ;;
     match deletedTask with
     | None => ret (mkResponse 404 (MessageBody "Task not found"))
     | Some _ => ret (mkResponse 200 (MessageBody "Task deleted successfully"))
     end)
    internal_error.

(** POST /api/tasks/:id/upload (lines 299 to 319) *)
Definition post_api_tasks_id_upload (req : Request) : M Response :=
  try_catch
    (match file req with
     | None => ret (mkResponse 400 (ErrorBody "No file uploaded"))
     | Some f =>
         task <- Task_findById (params_id req) ;;
         match task with
         | None => ret (mkResponse 404 (ErrorBody "Task not found"))
         | Some task =>
             let task := set_image ("/uploads/" ++ filename f) task in
             task <- save task ;;
             ret (mkResponse 200 (UploadBody "Image uploaded successfully" task))
         end
     end)
    internal_error.

End Routes.

(* ================================================================== *)
(** ** Notions used in the statements *)
(* ================================================================== *)

Import JS Store Mongoose Validate Routes.

(** The filter that reaches [Task.find]: the caller, and the status when the
    query names one. *)
Definition built_filter (req : Request) : Filter :=
  let f := mkFilter (user_userId req) None None in
  match q_status (query req) with
  | Some s => if truthy (VStr s) then set_status s f else f
  | None => f
  end.

Definition page_of (req : Request) : value :=
  default (of_query (q_page (query req))) (VNum (of_Z 1)).

Definition limit_of (req : Request) : value :=
  default (of_query (q_limit (query req))) (VNum (of_Z 10)).

(** Whether the request carries a search term that [if (search)] takes. *)
Definition search_truthy (req : Request) : bool :=
  match q_search (query req) with
  | Some s => truthy (VStr s)
  | None => false
  end.

Definition list_query (req : Request) : Query :=
  Query_limit (parseInt (limit_of req))
    (Query_skip (mul (sub (ToNumber (page_of req)) (of_Z 1)) (ToNumber (limit_of req)))
       (Query_sort (default (of_query (q_sort (query req))) (VStr "createdAt"))
          (Task_find (built_filter req)))).

Definition list_body (req : Request) (tasks : list Task) (total : nat) : Body :=
  ListBody tasks
    (json_number (parseInt (page_of req)))
    (json_number (Math_ceil (div (of_Z (Z.of_nat total)) (ToNumber (limit_of req)))))
    total.

(** The stored task that a path parameter names, if any. *)
Definition find_task (id : string) (db : Db) : option Task :=
  match castObjectId id with
  | Some oid => find_by_id oid (tasks db)
  | None => None
  end.

(** The stored tasks satisfy the validators of taskSchema. *)
Definition valid_db (db : Db) : Prop :=
  Forall (fun t => validate_task t = []) (tasks db).

(** Two states of a task that differ at most in the image and in the time of
    the last update. *)
Definition same_but_image (t t' : Task) : Prop :=
  _id t' = _id t /\ title t' = title t /\ description t' = description t /\
  status t' = status t /\ user t' = user t /\ createdAt t' = createdAt t.

(** The document of [t] after [task.image = path]. *)
Definition with_image (path : string) (t : Task) : Task :=
  mkTask (_id t) (title t) (description t) (status t) (user t) (Some path)
         (createdAt t) (updatedAt t).

(** The same request, sent by another caller. *)
Definition sent_by (userId : string) (req : Request) : Request :=
  mkRequest userId (params_id req) (query req) (body req) (file req).

(** A parameter of the query string that is an integer numeral: [Some] of the
    numeral's integer; when the parameter is absent, the default. *)
Definition integer_param (o : option string) (dflt : Z) (z : Z) : Prop :=
  match o with
  | Some s => numeral (trim s) = Some z
  | None => z = dflt
  end.


(** An integer that a double holds exactly, as it does every integer of
    size up to 2^53. *)
Definition exact_double (z : Z) : Prop := of_Z z = Fin (inject_Z z).

(** An integer whose nearest double is finite: one of size below
    2^1024 - 2^970. *)
Definition finite_double (z : Z) : Prop := exists v, of_Z z = Fin v.


(** What the Joi schema of validateTask asks of a body: a title that is a
    non-empty string; a description and a status that are absent or,
    respectively, a non-empty string and one of the three states; no other
    key. *)
Definition accepted (obj : object) : Prop :=
  (exists s, prop "title" obj = Some (JStr s) /\ s <> EmptyString) /\
  (prop "description" obj = None \/
   exists d, prop "description" obj = Some (JStr d) /\ d <> EmptyString) /\
  (prop "status" obj = None \/
   exists st, prop "status" obj = Some (JStr st) /\ In st status_enum) /\
  (forall k v, In (k, v) obj -> In k ["title"; "description"; "status"]).

(** The description and the status that a validated body carries. *)
Definition body_description (obj : object) : option string :=
  match prop "description" obj with
  | Some (JStr d) => Some (trim d)
  | _ => None
  end.

Definition body_status (obj : object) : option string :=
  match prop "status" obj with
  | Some (JStr st) => Some st
  | _ => None
  end.

(** The task that POST /api/tasks stores for a validated body with title
    [ttl], sent by the caller [uid] on the collection [db]. *)
Definition created_task (obj : object) (ttl : string) (uid : ObjectId) (db : Db) : Task :=
  mkTask (next_id db) (trim ttl) (body_description obj) (Some status_default) uid None
         (now db) (now db).

(** The task [t] after PUT /api/tasks/:id with a validated body with title
    [ttl], at time [time]: the title is replaced, the description and the
    status are replaced when the body carries them. *)
Definition updated_task (obj : object) (ttl : string) (time : Z) (t : Task) : Task :=
  mkTask (_id t) (trim ttl)
         (match prop "description" obj with
          | Some _ => body_description obj
          | None => description t
          end)
         (match prop "status" obj with
          | Some _ => body_status obj
          | None => status t
          end)
         (user t) (image t) (createdAt t) time.

(** The status of the response that a handler ends in. *)
Definition status_of (r : Result Response * Db) : option Z :=
  match r with
  | (Ok res, _) => Some (res_status res)
  | _ => None
  end.

(** The stored tasks after a handler has run. *)
Definition tasks_after (r : Result Response * Db) : list Task := tasks (snd r).

(** No two stored tasks share an [_id]. *)
Definition unique_ids (db : Db) : Prop := NoDup (map _id (tasks db)).

(** The orders of the default sort and of its reverse. *)
Definition oldest_first (a b : Task) : Prop := createdAt a <= createdAt b.
Definition newest_first (a b : Task) : Prop := createdAt b <= createdAt a.

(** The tasks and the total of a list response; none when the answer is not
    a list. *)
Definition listed_of (r : Result Response * Db) : list Task :=
  match r with
  | (Ok res, _) =>
      match res_body res with
      | ListBody l _ _ _ => l
      | _ => []
      end
  | _ => []
  end.

(** The same list request, for another page. *)
Definition on_page (page : string) (req : Request) : Request :=
  mkRequest (user_userId req) (params_id req)
    (mkQueryString (q_search (query req)) (Some page) (q_limit (query req))
       (q_sort (query req)) (q_status (query req)))
    (body req) (file req).

(** The sort that a list request asks for. *)
Definition sort_of (req : Request) : list (string * bool) :=
  match q_sort (query req) with
  | Some s => sort_spec s
  | None => sort_spec "createdAt"
  end.

(** The paths of a stored task. *)
Definition schema_paths : list string :=
  ["_id"; "title"; "description"; "status"; "user"; "image"; "createdAt"; "updatedAt"].

(** The sort parameter is absent or names one path of a task, with or
    without a leading minus sign. *)
Definition sorts_by_path (req : Request) : Prop :=
  match q_sort (query req) with
  | Some s => exists path, In path schema_paths /\ (s = path \/ s = String "-" path)
  | None => True
  end.

(** No two of the tasks compare equal in the sort. *)
Definition no_ties (spec : list (string * bool)) (l : list Task) : Prop :=
  forall a b, In a l -> In b l -> spec_compare spec a b = Eq -> a = b.

(** Two states of a task with the same identifier, owner and creation
    time. *)
Definition same_owner (t t' : Task) : Prop :=
  _id t' = _id t /\ user t' = user t /\ createdAt t' = createdAt t.

(** The tasks of the caller [uid] that the filter of a list request lets
    through, in the order of the sort it asks for. *)
Definition sorted_matching {engine : RegexEngine} (req : Request) (uid : ObjectId)
    (db : Db) : list Task :=
  sort_tasks (sort_of req) (filter (matches uid (built_filter req)) (tasks db)).

(** *** Sample data *)

(** An engine that reads a pattern as literal text. *)
Definition literal_engine : RegexEngine :=
  fun pattern _ subject =>
    match index 0 pattern subject with
    | Some _ => true
    | None => false
    end.

Definition alice : string := "aaaaaaaaaaaaaaaaaaaaaaaa".
Definition bob : string := "bbbbbbbbbbbbbbbbbbbbbbbb".

Definition alice_id : ObjectId := 52818775009509558395695966890%N.
Definition bob_id : ObjectId := 58100652510460514235265563579%N.

Definition report : Task :=
  mkTask 1%N "Write report" (Some "quarterly") (Some "Pending") alice_id None 1000 1000.

Definition milk : Task :=
  mkTask 2%N "Buy milk" None (Some "Completed") bob_id None 2000 2000.

Definition sample_db : Db := mkDb [report; milk] 3%N 5000.

Definition report_id : string := "000000000000000000000001".
Definition absent_id : string := "00000000000000000000000f".

Definition no_query : QueryString := mkQueryString None None None None None.

Definition call : Task :=
  mkTask 3%N "Call Ann" None (Some "Pending") alice_id None 3000 3000.

(** A collection that is not stored in the order of creation. *)
Definition busy_db : Db := mkDb [call; milk; report] 4%N 5000.

(** The no-break space, U+00A0. *)
Definition nbsp : string :=
  String (ascii_of_nat 194) (String (ascii_of_nat 160) EmptyString).



(* ================================================================== *)
(** ** Properties *)
(* ================================================================== *)

(** *** Sorting, skipping and limiting select among the given tasks *)

Lemma insert_In spec x l t : In t (insert spec x l) -> t = x \/ In t l.
Proof.
  induction l as [|y l IH]; simpl.
  - intros [H|[]]; auto.
  - destruct (task_leb spec x y); simpl.
    + intros [H|H]; auto.
    + intros [H|H]; auto. destruct (IH H); auto.
Qed.

Lemma sort_tasks_In spec l t : In t (sort_tasks spec l) -> In t l.
Proof.
  induction l as [|x l IH]; simpl; auto.
  intros H. apply insert_In in H. destruct H; auto.
Qed.

Lemma apply_sort_In o l l' t : apply_sort o l = Ok l' -> In t l' -> In t l.
Proof.
  unfold apply_sort. destruct o as [v|].
  - destruct v as [|n|s].
    + intros [= <-]. auto.
    + discriminate.
    + destruct (existsb _ _); [discriminate|]. intros [= <-]. apply sort_tasks_In.
  - intros [= <-]. auto.
Qed.

Lemma skipn_In {A} n (l : list A) t : In t (skipn n l) -> In t l.
Proof.
  revert l. induction n as [|n IH]; intros [|x l]; simpl; auto.
Qed.

Lemma firstn_In {A} n (l : list A) t : In t (firstn n l) -> In t l.
Proof.
  revert l. induction n as [|n IH]; intros [|x l]; simpl; auto.
  - intros [].
  - intros [H|H]; auto.
Qed.

Lemma apply_skip_In o l l' t : apply_skip o l = Ok l' -> In t l' -> In t l.
Proof.
  unfold apply_skip. destruct o as [n|].
  - destruct (0 <=? safeNumberLong n); [|discriminate].
    intros [= <-]. apply skipn_In.
  - intros [= <-]. auto.
Qed.

Lemma apply_limit_In o l l' t : apply_limit o l = Ok l' -> In t l' -> In t l.
Proof.
  unfold apply_limit. destruct o as [n|]; intros [= <-]; auto.
  destruct (_ =? 0); auto. apply firstn_In.
Qed.

Section ListRoute.
Context {engine : RegexEngine}.

(** What [Query_exec] returns is drawn from the tasks that match the
    conditions, and the collection is left as it was. *)
Lemma Query_exec_Ok q db l db' :
  Query_exec q db = (Ok l, db') ->
  db' = db /\
  exists uid, castObjectId (f_user (conditions q)) = Some uid /\
    forall t, In t l -> In t (tasks db) /\ matches uid (conditions q) t = true.
Proof.
  unfold Query_exec, bind, lift, get_db, cast_id.
  destruct (castObjectId (f_user (conditions q))) as [uid|]; [|discriminate].
  destruct (apply_sort _ _) as [sorted|] eqn:Hsort; [|discriminate].
  destruct (apply_skip _ _) as [skipped|] eqn:Hskip; [|discriminate].
  destruct (apply_limit _ _) as [limited|] eqn:Hlimit; [|discriminate].
  intros [= <- <-]. split; [reflexivity|]. exists uid. split; [reflexivity|].
  intros t Ht.
  apply (apply_limit_In _ _ _ _ Hlimit) in Ht.
  apply (apply_skip_In _ _ _ _ Hskip) in Ht.
  apply (apply_sort_In _ _ _ _ Hsort) in Ht.
  apply filter_In in Ht. exact Ht.
Qed.

Lemma Task_countDocuments_Ok f db n db' :
  Task_countDocuments f db = (Ok n, db') ->
  db' = db /\
  exists uid, castObjectId (f_user f) = Some uid /\
    n = List.length (filter (matches uid f) (tasks db)).
Proof.
  unfold Task_countDocuments, bind, lift, get_db, cast_id, ret.
  destruct (castObjectId (f_user f)) as [uid|]; [|discriminate].
  intros [= <- <-]. eauto.
Qed.

Lemma built_filter_user req : f_user (built_filter req) = user_userId req.
Proof.
  unfold built_filter. destruct (q_status (query req)) as [s|]; [|reflexivity].
  destruct (truthy (VStr s)); reflexivity.
Qed.

(** With a search term the handler stops at line 102. *)
Lemma get_api_tasks_search req db :
  search_truthy req = true ->
  get_api_tasks req db =
  (Ok (mkResponse 500 (ErrorBody "Cannot access 'filter' before initialization")), db).
Proof.
  unfold search_truthy, get_api_tasks, try_catch, if_truthy.
  destruct (q_search (query req)) as [s|]; [|discriminate].
  intros ->. reflexivity.
Qed.

(** Without one it runs the query and the count. *)
Lemma get_api_tasks_no_search req db :
  search_truthy req = false ->
  get_api_tasks req db =
  match Query_exec (list_query req) db with
  | (Ok tasks, db1) =>
      match Task_countDocuments (built_filter req) db1 with
      | (Ok total, db2) => (Ok (mkResponse 200 (list_body req tasks total)), db2)
      | (Throw e, db2) => (Ok (mkResponse 500 (ErrorBody (message e))), db2)
      end
  | (Throw e, db1) => (Ok (mkResponse 500 (ErrorBody (message e))), db1)
  end.
Proof.
  unfold search_truthy, get_api_tasks, try_catch, if_truthy, list_query, list_body,
    built_filter, page_of, limit_of, internal_error.
  intros Hs.
  assert (Hfirst :
    forall A (k : string -> M A) (e : M A),
      match q_search (query req) with
      | Some s => if truthy (VStr s) then k s else e
      | None => e
      end = e).
  { intros A k e. destruct (q_search (query req)); [rewrite Hs|]; reflexivity. }
  rewrite Hfirst.
  destruct (q_status (query req)) as [st|]; [destruct (truthy (VStr st))|];
    cbv [bind write_member read ret];
    (destruct (Query_exec _ db) as [[l|e] db1]; [|reflexivity]);
    (destruct (Task_countDocuments _ db1) as [[total|e] db2]; reflexivity).
Qed.

(** A list response, read back: the caller's identifier was cast, the tasks
    are among the stored tasks that match the filter, the total counts those,
    and the two page numbers are computed from the query. *)
Lemma get_api_tasks_list req db res db' tasks cp tp n :
  get_api_tasks req db = (Ok res, db') ->
  res_body res = ListBody tasks cp tp n ->
  db' = db /\
  exists uid, castObjectId (user_userId req) = Some uid /\
    (forall t, In t tasks ->
       In t (Store.tasks db) /\ matches uid (built_filter req) t = true) /\
    n = List.length (filter (matches uid (built_filter req)) (Store.tasks db)) /\
    cp = json_number (parseInt (page_of req)) /\
    tp = json_number (Math_ceil (div (of_Z (Z.of_nat n)) (ToNumber (limit_of req)))).
Proof.
  destruct (search_truthy req) eqn:Hs.
  - rewrite (get_api_tasks_search _ _ Hs). intros [= <- <-]. discriminate.
  - rewrite (get_api_tasks_no_search _ _ Hs).
    destruct (Query_exec (list_query req) db) as [[l|e] db1] eqn:Hq;
      [|intros [= <- <-]; discriminate].
    destruct (Task_countDocuments (built_filter req) db1) as [[total|e] db2] eqn:Hc;
      [|intros [= <- <-]; discriminate].
    intros [= <- <-]. unfold list_body. simpl. intros [= <- <- <- <-].
    apply Query_exec_Ok in Hq. destruct Hq as [-> (uid & Huid & Hin)].
    apply Task_countDocuments_Ok in Hc. destruct Hc as [-> (uid' & Huid' & Hn)].
    simpl in Huid. rewrite built_filter_user in Huid, Huid'.
    assert (uid' = uid) by congruence. subst uid'.
    split; [reflexivity|]. exists uid. repeat split; auto; apply Hin; auto.
Qed.

End ListRoute.

(** *** Creating a task *)

(** The three ways POST /api/tasks answers: the body fails the Joi schema,
    the document fails Mongoose's validation, or the task is inserted. *)
Lemma post_api_tasks_cases req db res db' :
  post_api_tasks req db = (Ok res, db') ->
  (exists error,
      schema_validate (body req) = Some error /\
      res = mkResponse 400 (ErrorBody error) /\ db' = db)
  \/ (exists error,
      schema_validate (body req) = None /\
      res = mkResponse 500 (ErrorBody error) /\ tasks db' = tasks db)
  \/ (exists t,
      schema_validate (body req) = None /\
      res = mkResponse 201 (TaskBody t) /\
      tasks db' = (tasks db ++ [t])%list /\
      _id t = next_id db /\
      status t = Some status_default /\
      castObjectId (user_userId req) = Some (user t) /\
      image t = None /\
      validate_task t = []).
Proof.
  unfold post_api_tasks, validateTask.
  destruct (schema_validate (body req)) as [error|].
  - intros [= <- <-]. left. eauto.
  - intros H. right.
    unfold try_catch, internal_error in H.
    cbv [bind new_Task ret] in H.
    unfold save_new in H. cbn [d_title d_description d_user d_id d_status d_image] in H.
    destruct (trimmed (castString "title" (prop "title" (body req)))) as [[ttl|]|e1] eqn:Ht.
    2,3: (injection H as <- <-; left; eauto).
    destruct (trimmed (castString "description" (prop "description" (body req))))
      as [descr|e2] eqn:Hd.
    2: (injection H as <- <-; left; eauto).
    unfold cast_id in H.
    destruct (castObjectId (user_userId req)) as [uid|] eqn:Hu.
    2: (injection H as <- <-; left; eauto).
    destruct (validate_draft _) as [|err errs] eqn:Hv.
    + cbv [bind get_db put_tasks ret with_tasks] in H. cbn in H.
      injection H as <- <-. right. eexists. repeat split; eauto.
    + injection H as <- <-. left. eauto.
Qed.

(** C10.  A task created by POST /api/tasks has status 'Pending', whatever
    the body says about the status: the handler passes the title and the
    description only, and the schema's default fills the status. *)
Theorem created_task_is_pending req db res db' :
  post_api_tasks req db = (Ok res, db') ->
  res_status res = 201 ->
  exists t,
    res_body res = TaskBody t /\
    status t = Some "Pending" /\
    tasks db' = (tasks db ++ [t])%list.
Proof.
  intros H Hstatus.
  destruct (post_api_tasks_cases _ _ _ _ H)
    as [(error & _ & -> & _) | [(error & _ & -> & _) | (t & _ & -> & Ht & _ & Hst & _)]];
    try discriminate.
  exists t. auto.
Qed.

Lemma created_task_is_pending_witness :
  let req := mkRequest alice "" no_query
               [("title", JStr "Plan trip"); ("status", JStr "Completed")] None in
  let t := mkTask 3%N "Plan trip" None (Some "Pending") alice_id None 5000 5000 in
  exists t',
    res_body (mkResponse 201 (TaskBody t)) = TaskBody t' /\
    status t' = Some "Pending" /\
    tasks (mkDb [report; milk; t] 4%N 5000) = (tasks sample_db ++ [t'])%list.
Proof.
  intros req t.
  apply (created_task_is_pending req sample_db (mkResponse 201 (TaskBody t))
           (mkDb [report; milk; t] 4%N 5000)); reflexivity.
Defined.

(** C6.  POST /api/tasks with a body that has no title answers 400 with the
    message "Title is required", and the collection is as it was. *)
Theorem create_without_title_rejected req db :
  prop "title" (body req) = None ->
  post_api_tasks req db = (Ok (mkResponse 400 (ErrorBody "Title is required")), db).
Proof.
  intros H. unfold post_api_tasks, validateTask, schema_validate.
  rewrite H. reflexivity.
Qed.

Lemma create_without_title_rejected_witness :
  post_api_tasks (mkRequest alice "" no_query [("description", JStr "no title")] None)
    sample_db
  = (Ok (mkResponse 400 (ErrorBody "Title is required")), sample_db).
Proof.
  apply create_without_title_rejected. reflexivity.
Defined.

(** *** Listing *)

(** C1.  The tasks that GET /api/tasks returns are stored tasks whose owner
    is the caller; a task that another user created is never among them. *)
Theorem list_returns_only_callers_tasks {engine : RegexEngine}
    req db res db' listed cp tp n :
  get_api_tasks req db = (Ok res, db') ->
  res_body res = ListBody listed cp tp n ->
  Forall (fun t => In t (tasks db) /\ castObjectId (user_userId req) = Some (user t))
         listed
  /\ forall reqA dbA resA dbA' t,
       post_api_tasks reqA dbA = (Ok resA, dbA') ->
       res_body resA = TaskBody t ->
       castObjectId (user_userId reqA) <> castObjectId (user_userId req) ->
       ~ In t listed.
Proof.
  intros H Hbody.
  destruct (get_api_tasks_list _ _ _ _ _ _ _ _ H Hbody)
    as (_ & uid & Huid & Hin & _).
  assert (Hown : forall t, In t listed ->
                   In t (tasks db) /\ castObjectId (user_userId req) = Some (user t)).
  { intros t Ht. destruct (Hin t Ht) as [Hdb Hm]. split; [exact Hdb|].
    unfold matches in Hm. apply andb_prop in Hm. destruct Hm as [Hm _].
    apply andb_prop in Hm. destruct Hm as [Hm _].
    apply N.eqb_eq in Hm. congruence. }
  split.
  - apply Forall_forall. exact Hown.
  - intros reqA dbA resA dbA' t HA HbodyA Hne Ht.
    destruct (post_api_tasks_cases _ _ _ _ HA)
      as [(error & _ & -> & _) | [(error & _ & -> & _) | (t' & _ & -> & _ & _ & _ & Hu & _)]];
      try discriminate.
    injection HbodyA as ->.
    destruct (Hown t Ht) as [_ Hcaller]. congruence.
Qed.

Lemma list_returns_only_callers_tasks_witness :
  Forall (fun t => In t (tasks sample_db) /\ castObjectId bob = Some (user t)) [milk].
Proof.
  exact (proj1 (list_returns_only_callers_tasks (engine := literal_engine)
                  (mkRequest bob "" no_query [] None) sample_db
                  (mkResponse 200 (ListBody [milk] (Some 1%Q) (Some 1%Q) 1%nat))
                  sample_db [milk] (Some 1%Q) (Some 1%Q) 1%nat
                  eq_refl eq_refl)).
Defined.

(** *** Updating *)

Lemma joi_status_rejects v :
  ~ In v (map JStr status_enum) -> joi_status (Some v) <> None.
Proof.
  intros Hout. unfold joi_status.
  destruct v as [| b | text | s | text]; try discriminate.
  destruct (existsb (String.eqb s) ["Pending"; "In Progress"; "Completed"]) eqn:He;
    [|discriminate].
  exfalso. apply Hout.
  apply existsb_exists in He. destruct He as (x & Hx & Heq).
  apply String.eqb_eq in Heq. subst x.
  apply in_map. exact Hx.
Qed.

(** C7.  PUT /api/tasks/:id with a status that is none of Pending, In
    Progress, Completed answers 400, and the collection is as it was. *)
Theorem update_with_unknown_status_rejected req db v :
  prop "status" (body req) = Some v ->
  ~ In v (map JStr status_enum) ->
  exists error,
    put_api_tasks_id req db = (Ok (mkResponse 400 (ErrorBody error)), db).
Proof.
  intros Hv Hout.
  unfold put_api_tasks_id, validateTask, schema_validate.
  rewrite Hv.
  destruct (joi_title _) as [e1|]; [eexists; reflexivity|].
  destruct (joi_description _) as [e2|]; [eexists; reflexivity|].
  destruct (joi_status (Some v)) as [e3|] eqn:H3; [eexists; reflexivity|].
  exfalso. exact (joi_status_rejects v Hout H3).
Qed.

Lemma update_with_unknown_status_rejected_witness :
  exists error,
    put_api_tasks_id
      (mkRequest alice report_id no_query
         [("title", JStr "Write report"); ("status", JStr "Done")] None)
      sample_db
    = (Ok (mkResponse 400 (ErrorBody error)), sample_db).
Proof.
  apply (update_with_unknown_status_rejected _ _ (JStr "Done")).
  - reflexivity.
  - simpl. intros [H|[H|[H|[]]]]; discriminate.
Defined.

(** *** Uploading an image *)

Lemma find_by_id_Some oid l t : find_by_id oid l = Some t -> In t l /\ _id t = oid.
Proof.
  unfold find_by_id. intros H. apply find_some in H. destruct H as [Hin Heq].
  apply N.eqb_eq in Heq. auto.
Qed.

Lemma find_replace_first oid l t t' :
  find_by_id oid l = Some t -> _id t' = oid ->
  find_by_id oid (replace_first oid t' l) = Some t'.
Proof.
  unfold find_by_id. intros Hfind Hid. induction l as [|x l IH]; simpl in *.
  - discriminate.
  - destruct (N.eqb (_id x) oid) eqn:Hx; simpl.
    + rewrite Hid, N.eqb_refl. reflexivity.
    + rewrite Hx. auto.
Qed.

Lemma replace_first_Forall2 (R : Task -> Task -> Prop) oid l t t' :
  (forall x, R x x) ->
  find_by_id oid l = Some t -> R t t' ->
  Forall2 R l (replace_first oid t' l).
Proof.
  unfold find_by_id. intros Hrefl Hfind Ht. induction l as [|x l IH]; simpl in *.
  - constructor.
  - destruct (N.eqb (_id x) oid) eqn:Hx.
    + injection Hfind as ->. constructor; [exact Ht|].
      clear IH. induction l; constructor; auto.
    + constructor; auto.
Qed.

Lemma Forall2_refl {A} (R : A -> A -> Prop) l : (forall x, R x x) -> Forall2 R l l.
Proof. intros H. induction l; constructor; auto. Qed.

Lemma option_eqb_eq a b : option_eqb a b = true -> a = b.
Proof.
  destruct a, b; simpl; try discriminate; auto.
  intros H. apply String.eqb_eq in H. congruence.
Qed.

(** The upload route when a file is attached and the task is found and
    valid: the answer is 200; the collection is written unless the task
    already had this image. *)
Lemma upload_with_file req db f oid t :
  file req = Some f ->
  castObjectId (params_id req) = Some oid ->
  find_by_id oid (tasks db) = Some t ->
  validate_task t = [] ->
  let t1 := with_image ("/uploads/" ++ filename f) t in
  post_api_tasks_id_upload req db =
  if option_eqb (image t) (image t1)
  then (Ok (mkResponse 200 (UploadBody "Image uploaded successfully" t1)), db)
  else (Ok (mkResponse 200
              (UploadBody "Image uploaded successfully" (touch t1 (now db)))),
        with_tasks db (replace_first (_id t) (touch t1 (now db)) (tasks db))).
Proof.
  intros Hf Hoid Hfind Hvalid t1.
  unfold post_api_tasks_id_upload, try_catch. rewrite Hf.
  cbv [bind Task_findById lift cast_id get_db ret]. rewrite Hoid, Hfind.
  cbn [option_map]. unfold save.
  change (current (set_image ("/uploads/" ++ filename f) (mkDoc t t))) with t1.
  change (stored (set_image ("/uploads/" ++ filename f) (mkDoc t t))) with t.
  change (validate_task t1) with (validate_task t). rewrite Hvalid.
  destruct (option_eqb (image t) (image t1)); reflexivity.
Qed.

(** A 200 from the upload route means that a file was attached and that the
    task was found and valid. *)
Lemma upload_success req db res db' :
  post_api_tasks_id_upload req db = (Ok res, db') ->
  res_status res = 200 ->
  exists f oid t,
    file req = Some f /\
    castObjectId (params_id req) = Some oid /\
    find_by_id oid (tasks db) = Some t /\
    validate_task t = [].
Proof.
  unfold post_api_tasks_id_upload, try_catch, internal_error.
  destruct (file req) as [f|]; [|intros [= <- <-]; discriminate].
  cbv [bind Task_findById lift cast_id get_db ret].
  destruct (castObjectId (params_id req)) as [oid|]; [|intros [= <- <-]; discriminate].
  destruct (find_by_id oid (tasks db)) as [t|] eqn:Hfind;
    [|intros [= <- <-]; discriminate].
  cbn [option_map]. unfold save.
  change (validate_task (current (set_image ("/uploads/" ++ filename f) (mkDoc t t))))
    with (validate_task t).
  destruct (validate_task t) eqn:Hvalid; [|intros [= <- <-]; discriminate].
  intros _ _. exists f, oid, t. auto.
Qed.

Lemma valid_db_find id db t :
  valid_db db -> find_task id db = Some t ->
  exists oid, castObjectId id = Some oid /\ find_by_id oid (tasks db) = Some t /\
              validate_task t = [].
Proof.
  unfold valid_db, find_task. intros Hvalid Hfind.
  destruct (castObjectId id) as [oid|]; [|discriminate].
  exists oid. repeat split; auto.
  apply find_by_id_Some in Hfind. destruct Hfind as [Hin _].
  rewrite Forall_forall in Hvalid. auto.
Qed.

(** C8.  POST /api/tasks/:id/upload without a file answers 400.  With a file
    and the identifier of a stored task it answers 200, and the stored task
    then has the image "/uploads/" followed by the file's name.  The stored
    tasks are taken to satisfy the schema, as the routes leave them. *)
Theorem upload_sets_image req db :
  (file req = None ->
   post_api_tasks_id_upload req db
   = (Ok (mkResponse 400 (ErrorBody "No file uploaded")), db))
  /\ (forall f t,
        file req = Some f ->
        find_task (params_id req) db = Some t ->
        valid_db db ->
        exists t' db',
          post_api_tasks_id_upload req db
          = (Ok (mkResponse 200 (UploadBody "Image uploaded successfully" t')), db') /\
          find_task (params_id req) db' = Some t' /\
          image t' = Some ("/uploads/" ++ filename f) /\
          prefix "/uploads/" ("/uploads/" ++ filename f) = true).
Proof.
  split.
  - intros Hf. unfold post_api_tasks_id_upload, try_catch. rewrite Hf. reflexivity.
  - intros f t Hf Hfind Hvalid.
    destruct (valid_db_find _ _ _ Hvalid Hfind) as (oid & Hoid & Hfound & Hok).
    rewrite (upload_with_file _ _ _ _ _ Hf Hoid Hfound Hok).
    assert (Hprefix : prefix "/uploads/" ("/uploads/" ++ filename f) = true).
    { destruct (filename f); reflexivity. }
    destruct (option_eqb (image t) (image (with_image ("/uploads/" ++ filename f) t)))
      eqn:Hsame.
    + apply option_eqb_eq in Hsame. simpl in Hsame.
      assert (Heq : with_image ("/uploads/" ++ filename f) t = t).
      { destruct t; simpl in *. unfold with_image. simpl. congruence. }
      rewrite Heq. exists t, db. repeat split; auto.
    + eexists. eexists. split; [reflexivity|].
      split; [|split; [reflexivity|exact Hprefix]].
      unfold find_task. rewrite Hoid.
      destruct (find_by_id_Some _ _ _ Hfound) as [_ Hid].
      simpl. rewrite Hid. apply (find_replace_first _ _ t); auto.
Qed.

Lemma upload_sets_image_witness :
  post_api_tasks_id_upload (mkRequest bob report_id no_query [] None) sample_db
  = (Ok (mkResponse 400 (ErrorBody "No file uploaded")), sample_db)
  /\ exists t' db',
       post_api_tasks_id_upload
         (mkRequest bob report_id no_query [] (Some (mkFile "chart.png"))) sample_db
       = (Ok (mkResponse 200 (UploadBody "Image uploaded successfully" t')), db') /\
       find_task report_id db' = Some t' /\
       image t' = Some "/uploads/chart.png" /\
       prefix "/uploads/" "/uploads/chart.png" = true.
Proof.
  split.
  - apply (proj1 (upload_sets_image (mkRequest bob report_id no_query [] None) sample_db)).
    reflexivity.
  - apply (proj2 (upload_sets_image
                    (mkRequest bob report_id no_query [] (Some (mkFile "chart.png")))
                    sample_db) (mkFile "chart.png") report).
    + reflexivity.
    + reflexivity.
    + repeat constructor.
Defined.

Lemma same_but_image_refl t : same_but_image t t.
Proof. unfold same_but_image. auto 10. Qed.

(** C9.  A successful upload leaves the identifier, title, description,
    status, owner and creation time of every stored task as they were, and
    neither adds nor removes a task. *)
Theorem upload_changes_image_only req db res db' :
  post_api_tasks_id_upload req db = (Ok res, db') ->
  res_status res = 200 ->
  Forall2 same_but_image (tasks db) (tasks db').
Proof.
  intros H Hstatus.
  destruct (upload_success _ _ _ _ H Hstatus) as (f & oid & t & Hf & Hoid & Hfound & Hok).
  rewrite (upload_with_file _ _ _ _ _ Hf Hoid Hfound Hok) in H.
  destruct (option_eqb _ _).
  - injection H as _ <-. apply Forall2_refl. exact same_but_image_refl.
  - injection H as _ <-. simpl.
    destruct (find_by_id_Some _ _ _ Hfound) as [_ Hid]. rewrite Hid.
    apply (replace_first_Forall2 _ _ _ t); auto.
    + exact same_but_image_refl.
    + unfold same_but_image. simpl. auto 10.
Qed.

Lemma upload_changes_image_only_witness :
  Forall2 same_but_image (tasks sample_db)
    [mkTask 1%N "Write report" (Some "quarterly") (Some "Pending") alice_id
            (Some "/uploads/chart.png") 1000 5000;
     milk].
Proof.
  apply (upload_changes_image_only
           (mkRequest bob report_id no_query [] (Some (mkFile "chart.png")))
           sample_db
           (mkResponse 200
              (UploadBody "Image uploaded successfully"
                 (mkTask 1%N "Write report" (Some "quarterly") (Some "Pending") alice_id
                         (Some "/uploads/chart.png") 1000 5000)))
           (mkDb [mkTask 1%N "Write report" (Some "quarterly") (Some "Pending") alice_id
                         (Some "/uploads/chart.png") 1000 5000;
                  milk] 3%N 5000)); reflexivity.
Defined.

(** *** The routes keep the stored tasks valid *)

Lemma replace_first_Forall (P : Task -> Prop) oid t' l :
  Forall P l -> P t' -> Forall P (replace_first oid t' l).
Proof.
  intros Hl Ht. induction Hl as [|x l Hx Hl IH]; simpl.
  - constructor.
  - destruct (N.eqb (_id x) oid); constructor; auto.
Qed.

Lemma remove_first_Forall (P : Task -> Prop) oid l :
  Forall P l -> Forall P (remove_first oid l).
Proof.
  intros Hl. induction Hl as [|x l Hx Hl IH]; simpl.
  - constructor.
  - destruct (N.eqb (_id x) oid); [assumption|constructor; auto].
Qed.

Lemma post_preserves_valid_db req db res db' :
  valid_db db -> post_api_tasks req db = (Ok res, db') -> valid_db db'.
Proof.
  unfold valid_db. intros Hvalid H.
  destruct (post_api_tasks_cases _ _ _ _ H)
    as [(error & _ & _ & ->)
       | [(error & _ & _ & ->) | (t & _ & _ & -> & _ & _ & _ & _ & Ht)]]; auto.
  apply Forall_app. split; auto.
Qed.

Lemma put_preserves_valid_db req db res db' :
  valid_db db -> put_api_tasks_id req db = (Ok res, db') -> valid_db db'.
Proof.
  unfold valid_db, put_api_tasks_id, validateTask. intros Hvalid.
  destruct (schema_validate (body req)); [intros [= _ <-]; exact Hvalid|].
  unfold try_catch, internal_error, Task_findByIdAndUpdate.
  cbv [bind lift get_db ret put_tasks with_tasks].
  destruct (cast_id "_id" (params_id req)) as [oid|]; [|intros [= _ <-]; exact Hvalid].
  destruct (cast_change "title" true _) as [c_title|]; [|intros [= _ <-]; exact Hvalid].
  destruct (cast_change "description" true _) as [c_descr|];
    [|intros [= _ <-]; exact Hvalid].
  destruct (cast_change "status" false _) as [c_status|];
    [|intros [= _ <-]; exact Hvalid].
  destruct (validate_update c_title c_status) eqn:Hv; [|intros [= _ <-]; exact Hvalid].
  destruct (find_by_id oid (tasks db)) as [t|] eqn:Hfind; [|intros [= _ <-]; exact Hvalid].
  intros [= _ <-]. simpl.
  apply replace_first_Forall; [exact Hvalid|].
  apply find_by_id_Some in Hfind. destruct Hfind as [Hin _].
  rewrite Forall_forall in Hvalid. specialize (Hvalid t Hin).
  unfold validate_update in Hv. apply app_eq_nil in Hv. destruct Hv as [Hv1 Hv2].
  unfold validate_task in *. apply app_eq_nil in Hvalid. destruct Hvalid as [Ht1 Ht2].
  cbn [title status].
  assert (H1 : required_title
                 (Some match c_title with
                       | Set_to (Some s) => s
                       | _ => title t
                       end) = []).
  { destruct c_title as [|[s|]]; simpl in *; auto; discriminate. }
  assert (H2 : enum_status (change_opt c_status (status t)) = []).
  { destruct c_status; simpl in *; auto. }
  rewrite H1, H2. reflexivity.
Qed.

Lemma delete_preserves_valid_db req db res db' :
  valid_db db -> delete_api_tasks_id req db = (Ok res, db') -> valid_db db'.
Proof.
  unfold valid_db, delete_api_tasks_id, try_catch, internal_error, Task_findByIdAndDelete.
  cbv [bind lift get_db ret put_tasks with_tasks]. intros Hvalid.
  destruct (cast_id "_id" (params_id req)) as [oid|]; [|intros [= _ <-]; exact Hvalid].
  destruct (find_by_id oid (tasks db)) as [t|]; intros [= _ <-]; [|exact Hvalid].
  simpl. apply remove_first_Forall. exact Hvalid.
Qed.

Lemma upload_preserves_valid_db req db res db' :
  valid_db db -> post_api_tasks_id_upload req db = (Ok res, db') -> valid_db db'.
Proof.
  unfold valid_db, post_api_tasks_id_upload, try_catch, internal_error.
  intros Hvalid.
  destruct (file req) as [f|]; [|intros [= _ <-]; exact Hvalid].
  cbv [bind Task_findById lift get_db ret].
  destruct (cast_id "_id" (params_id req)) as [oid|]; [|intros [= _ <-]; exact Hvalid].
  destruct (find_by_id oid (tasks db)) as [t|]; [|intros [= _ <-]; exact Hvalid].
  cbn [option_map]. unfold save.
  change (validate_task (current (set_image ("/uploads/" ++ filename f) (mkDoc t t))))
    with (validate_task t).
  destruct (validate_task t) eqn:Ht; [|intros [= _ <-]; exact Hvalid].
  destruct (option_eqb _ _); [intros [= _ <-]; exact Hvalid|].
  cbv [bind get_db put_tasks ret with_tasks]. intros [= _ <-]. simpl.
  apply replace_first_Forall; [exact Hvalid|exact Ht].
Qed.

(** *** Reading the caller-independent routes *)

(** GET /api/tasks/:id stops at line 161: the file binds no [mongoose]. *)
Lemma get_api_tasks_id_throws req db :
  get_api_tasks_id req db
  = (Ok (mkResponse 500 (ErrorBody "mongoose is not defined")), db).
Proof. reflexivity. Qed.

(** None of the four routes on one task reads [req.user]. *)
Lemma ownership_not_checked userId req db :
  get_api_tasks_id (sent_by userId req) db = get_api_tasks_id req db /\
  put_api_tasks_id (sent_by userId req) db = put_api_tasks_id req db /\
  delete_api_tasks_id (sent_by userId req) db = delete_api_tasks_id req db /\
  post_api_tasks_id_upload (sent_by userId req) db = post_api_tasks_id_upload req db.
Proof. repeat split. Qed.

(** *** Doubles *)


Lemma pow2_add a b : (pow2 (a + b) == pow2 a * pow2 b)%Q.
Proof. apply Qpower_plus. discriminate. Qed.

Lemma pow2_nonneg k : 0 <= k -> (pow2 k == inject_Z (2 ^ k))%Q.
Proof. intros H. unfold pow2. rewrite (Zpower_Qpower 2 k H). reflexivity. Qed.


Lemma Zpos_Qden_pos q : 0 < Zpos (Qden q).
Proof. lia. Qed.

(** The exponent of a positive rational. *)
Lemma floor_log2_spec q :
  (0 < q)%Q -> (pow2 (floor_log2 q) <= q < pow2 (floor_log2 q + 1))%Q.
Proof.
  intros Hq. unfold floor_log2.
  destruct q as [a b]. unfold Qlt in Hq. simpl in Hq. rewrite Z.mul_1_r in Hq.
  cbn [Qnum Qden].
  pose proof (Z.log2_spec a Hq) as [Ha1 Ha2].
  pose proof (Z.log2_spec (Zpos b) ltac:(lia)) as [Hb1 Hb2].
  pose proof (Z.log2_nonneg a) as Hla. pose proof (Z.log2_nonneg (Zpos b)) as Hlb.
  set (la := Z.log2 a) in *. set (lb := Z.log2 (Zpos b)) in *.
  assert (Hp : forall x y, 0 <= x -> 0 <= y ->
                 (pow2 (x - y) == inject_Z (2 ^ x) / inject_Z (2 ^ y))%Q).
  { intros x y Hx Hy. unfold pow2. change (2#1)%Q with (inject_Z 2).
    rewrite Qpower_minus by discriminate.
    rewrite (Zpower_Qpower 2 x Hx), (Zpower_Qpower 2 y Hy). reflexivity. }
  assert (Hpa : 0 < 2 ^ la) by (apply Z.pow_pos_nonneg; lia).
  assert (Hpb : 0 < 2 ^ lb) by (apply Z.pow_pos_nonneg; lia).
  assert (Hs1 : 2 ^ Z.succ la = 2 * 2 ^ la) by (apply Z.pow_succ_r; lia).
  assert (Hs2 : 2 ^ Z.succ lb = 2 * 2 ^ lb) by (apply Z.pow_succ_r; lia).
  destruct (Qle_bool (pow2 (la - lb)) (a # b)) eqn:Ht.
  - apply Qle_bool_iff in Ht. split; [exact Ht|].
    replace (la - lb + 1) with (Z.succ la - lb) by lia.
    rewrite Hp by lia.
    apply Qlt_shift_div_l; [unfold Qlt; simpl; lia|].
    unfold Qlt, Qmult, inject_Z. simpl. nia.
  - assert (Hlt : (a # b < pow2 (la - lb))%Q).
    { apply Qnot_le_lt. intros H. apply Qle_bool_iff in H. congruence. }
    replace (la - lb - 1 + 1) with (la - lb) by lia. split; [|exact Hlt].
    replace (la - lb - 1) with (la - Z.succ lb) by lia.
    rewrite Hp by lia.
    apply Qle_shift_div_r; [unfold Qlt; simpl; lia|].
    unfold Qle, Qmult, inject_Z. simpl. nia.
Qed.

Lemma floor_log2_range q lo hi :
  (0 < q)%Q -> (pow2 lo <= q)%Q -> (q < pow2 hi)%Q -> lo <= floor_log2 q < hi.
Proof.
  intros Hq Hlo Hhi. destruct (floor_log2_spec q Hq) as [H1 H2]. split.
  - assert (H : lo < floor_log2 q + 1); [|lia].
    apply (Qpower_lt_compat_l_inv (2#1)); [|reflexivity].
    eapply Qle_lt_trans; [exact Hlo|exact H2].
  - apply (Qpower_lt_compat_l_inv (2#1)); [|reflexivity].
    eapply Qle_lt_trans; [exact H1|exact Hhi].
Qed.


Lemma rhe_comp m m' : (m == m')%Q -> round_half_even m = round_half_even m'.
Proof.
  intros H. unfold round_half_even. rewrite (Qfloor_comp _ _ H).
  assert (Hc : (m - inject_Z (Qfloor m') ?= 1#2)%Q = (m' - inject_Z (Qfloor m') ?= 1#2)%Q).
  { apply Qcompare_comp; [|reflexivity]. rewrite H. reflexivity. }
  rewrite Hc. reflexivity.
Qed.

Lemma rhe_Z k : round_half_even (inject_Z k) = k.
Proof.
  unfold round_half_even. rewrite Qfloor_Z.
  destruct (Qcompare_spec (inject_Z k - inject_Z k) (1#2)) as [H|H|H];
    try reflexivity; exfalso; lra.
Qed.

Lemma Qred_inject_Z z : Qred (inject_Z z) = inject_Z z.
Proof.
  apply Qcanon.Qred_identity. simpl. apply Z.gcd_1_r.
Qed.

Lemma floor_log2_Z z : 0 < z -> floor_log2 (inject_Z z) = Z.log2 z.
Proof.
  intros Hz.
  pose proof (Z.log2_spec z Hz) as [H1 H2].
  pose proof (Z.log2_nonneg z) as H0.
  assert (H : Z.log2 z <= floor_log2 (inject_Z z) < Z.log2 z + 1); [|lia].
  apply floor_log2_range.
  - unfold Qlt. simpl. lia.
  - rewrite pow2_nonneg by lia. rewrite <- Zle_Qle. exact H1.
  - rewrite pow2_nonneg by lia. rewrite <- Zlt_Qlt.
    replace (Z.log2 z + 1) with (Z.succ (Z.log2 z)) by lia. exact H2.
Qed.

(** Every integer up to 2^53 is a double. *)
Lemma round_pos_Z z : 0 < z <= 2 ^ 53 -> round_pos (inject_Z z) = Fin (inject_Z z).
Proof.
  intros [Hz Hmax].
  destruct (Z.eq_dec z (2 ^ 53)) as [->|Hne]; [vm_compute; reflexivity|].
  assert (Hlog : Z.log2 z < 53) by (apply Z.log2_lt_pow2; lia).
  pose proof (Z.log2_nonneg z) as H0.
  unfold round_pos. rewrite (floor_log2_Z z Hz).
  rewrite Z.max_l by lia.
  set (e := Z.log2 z - 52) in *.
  replace (970 <? e) with false by (symmetry; apply Z.ltb_ge; lia).
  cbn [andb]. f_equal.
  transitivity (Qred (inject_Z z)); [|apply Qred_inject_Z].
  apply Qred_complete.
  assert (Hinv : (pow2 e * pow2 (- e) == 1)%Q).
  { rewrite <- pow2_add. replace (e + - e) with 0 by lia. reflexivity. }
  assert (Hm : (inject_Z z / pow2 e == inject_Z (z * 2 ^ (- e)))%Q).
  { rewrite inject_Z_mult, <- pow2_nonneg by lia.
    unfold Qdiv. apply Qmult_comp; [reflexivity|].
    unfold pow2. rewrite Qpower_opp. reflexivity. }
  rewrite (rhe_comp _ _ Hm), rhe_Z.
  rewrite inject_Z_mult, <- pow2_nonneg by lia.
  rewrite <- Qmult_assoc, (Qmult_comm (pow2 (- e))), Hinv. ring.
Qed.

Lemma round53_comp q q' : (q == q')%Q -> round53 q = round53 q'.
Proof.
  intros H. unfold round53. rewrite (Qred_complete _ _ H). reflexivity.
Qed.

Lemma of_Z_exact z : Z.abs z <= 2 ^ 53 -> of_Z z = Fin (inject_Z z).
Proof.
  intros Hz. unfold of_Z, round53. rewrite Qred_inject_Z.
  destruct z as [|p|p]; cbn [Qnum inject_Z].
  - reflexivity.
  - apply (round_pos_Z (Zpos p)). lia.
  - change (neg (round_pos (inject_Z (Zpos p))) = Fin (inject_Z (Zneg p))).
    rewrite (round_pos_Z (Zpos p)) by lia. cbn [neg].
    change (- inject_Z (Zpos p))%Q with (inject_Z (Zneg p)).
    rewrite Qred_inject_Z. reflexivity.
Qed.




Lemma sub_exact a b :
  Z.abs (a - b) <= 2 ^ 53 ->
  sub (Fin (inject_Z a)) (Fin (inject_Z b)) = Fin (inject_Z (a - b)).
Proof.
  intros H. unfold sub.
  rewrite (round53_comp _ (inject_Z (a - b))).
  - apply of_Z_exact. exact H.
  - unfold Zminus. rewrite inject_Z_plus, inject_Z_opp. reflexivity.
Qed.

Lemma mul_exact a b :
  Z.abs (a * b) <= 2 ^ 53 ->
  mul (Fin (inject_Z a)) (Fin (inject_Z b)) = Fin (inject_Z (a * b)).
Proof.
  intros H. unfold mul.
  rewrite (round53_comp _ (inject_Z (a * b))).
  - apply of_Z_exact. exact H.
  - rewrite inject_Z_mult. reflexivity.
Qed.
















(** *** Integer numerals *)

Lemma digit_plain c d :
  digit c = Some d -> is_space c = false /\ Nat.ltb (nat_of_ascii c) 128 = true.
Proof.
  destruct c as [[] [] [] [] [] [] [] []]; vm_compute; intros H;
    try discriminate H; split; reflexivity.
Qed.

(** A byte of ASCII that is no white space starts no white space. *)
Lemma trimStart_plain c s :
  is_space c = false -> Nat.ltb (nat_of_ascii c) 128 = true ->
  trimStart (String c s) = String c s.
Proof.
  intros Hs Hc. apply Nat.ltb_lt in Hc.
  assert (Hne : forall k, (128 <= k)%nat -> Nat.eqb (nat_of_ascii c) k = false).
  { intros k Hk. apply Nat.eqb_neq. lia. }
  assert (H2 : forall b, is_space2 c b = false).
  { intros b. unfold is_space2. rewrite Hne by lia. reflexivity. }
  assert (H3 : forall b d, is_space3 c b d = false).
  { intros b d. unfold is_space3. cbv zeta. rewrite !Hne by lia. reflexivity. }
  cbn [trimStart]. rewrite Hs.
  destruct s as [|b [|d s3]]; try reflexivity.
  - rewrite H2. reflexivity.
  - rewrite H2, H3. reflexivity.
Qed.

Lemma trimEnd_cons c s :
  is_space c = false -> Nat.ltb (nat_of_ascii c) 128 = true ->
  trimEnd (String c s) = String c (trimEnd s).
Proof.
  intros Hs Hc. cbn [trimEnd]. rewrite (trimStart_plain c s Hs Hc). reflexivity.
Qed.

Lemma all_digits_prefix s acc z :
  all_digits (trimEnd s) acc = Some z -> digit_prefix 10 digit s acc = Some z.
Proof.
  revert acc. induction s as [|c s IH]; intros acc; [simpl; auto|].
  cbn [trimEnd digit_prefix].
  destruct (String.eqb (trimStart (String c s)) EmptyString) eqn:Hc.
  - cbn [all_digits]. intros ->.
    destruct (digit c) as [d|] eqn:Hd; [|reflexivity].
    destruct (digit_plain _ _ Hd) as [H1 H2].
    rewrite (trimStart_plain _ s H1 H2) in Hc. discriminate Hc.
  - cbn [all_digits]. destruct (digit c); [apply IH|discriminate].
Qed.

Lemma all_digits_unsigned_prefix s z :
  all_digits (trimEnd s) None = Some z -> unsigned_prefix s = Some z.
Proof.
  intros H. unfold unsigned_prefix.
  destruct s as [|c [|x r]]; try (apply all_digits_prefix; exact H).
  destruct (Ascii.eqb c "0" && (Ascii.eqb x "x" || Ascii.eqb x "X"))%bool eqn:Hhex;
    [|apply all_digits_prefix; exact H].
  exfalso. apply andb_prop in Hhex. destruct Hhex as [Hc Hx].
  apply Ascii.eqb_eq in Hc. subst c.
  rewrite trimEnd_cons in H by reflexivity.
  assert (Hxs : is_space x = false /\ Nat.ltb (nat_of_ascii x) 128 = true
                /\ digit x = None).
  { apply orb_prop in Hx. destruct Hx as [Hx|Hx]; apply Ascii.eqb_eq in Hx; subst x;
      repeat split; reflexivity. }
  destruct Hxs as (Hxs & Hxa & Hxd).
  rewrite (trimEnd_cons x r Hxs Hxa) in H.
  simpl in H. rewrite Hxd in H. discriminate.
Qed.

(** On an integer numeral [parseInt] gives the double nearest to the
    integer. *)
Lemma numeral_parseInt s z :
  numeral (trim s) = Some z -> parseInt_string s = of_Z z.
Proof.
  unfold trim, parseInt_string.
  destruct (trimStart s) as [|c r] eqn:Hs; [discriminate|].
  cbn [trimEnd].
  destruct (String.eqb (trimStart (String c r)) EmptyString) eqn:Hc; [discriminate|].
  unfold numeral.
  destruct (Ascii.eqb c "+").
  - intros H. rewrite (all_digits_unsigned_prefix _ _ H). reflexivity.
  - destruct (Ascii.eqb c "-").
    + destruct (all_digits (trimEnd r) None) as [z'|] eqn:H; [|discriminate].
      intros [= <-]. rewrite (all_digits_unsigned_prefix _ _ H). reflexivity.
    + intros H. rewrite (all_digits_unsigned_prefix (String c r) z); [reflexivity|].
      cbn [trimEnd]. rewrite Hc. exact H.
Qed.

Lemma all_digits_run s acc n z :
  all_digits s acc = Some z ->
  digits_run s (match acc with Some a => a | None => 0 end) n
  = (z, (n + String.length s)%nat, EmptyString).
Proof.
  revert acc n. induction s as [|c s IH]; intros acc n;
    cbn [all_digits digits_run String.length].
  - intros ->. rewrite Nat.add_0_r. reflexivity.
  - destruct (digit c) as [d|]; [|discriminate].
    intros H. rewrite Nat.add_succ_r. exact (IH _ (S n) H).
Qed.

(** A run of digits is a decimal literal, of the integer it writes. *)
Lemma all_digits_decimal s z :
  all_digits s None = Some z ->
  exists q, decimal_literal s = Some q /\ q == inject_Z z.
Proof.
  intros H. unfold decimal_literal.
  rewrite (all_digits_run s None 0 z H).
  destruct s as [|c s]; [discriminate|].
  cbn [String.length Nat.add exponent_part Z.of_nat].
  eexists. split; [reflexivity|].
  rewrite Z.pow_0_r, Z.mul_1_r, Z.add_0_r.
  change (Qpower (10 # 1) (0 - 0)) with 1%Q. apply Qmult_1_r.
Qed.

Lemma all_digits_not_Infinity s z :
  all_digits s None = Some z -> String.eqb s "Infinity" = false.
Proof.
  intros H. destruct (String.eqb s "Infinity") eqn:E; [|reflexivity].
  apply String.eqb_eq in E. subst s. discriminate H.
Qed.

Lemma all_digits_unsigned_MV s z :
  all_digits s None = Some z ->
  exists q, unsigned_MV s = Fin q /\ q == inject_Z z.
Proof.
  intros H. unfold unsigned_MV.
  rewrite (all_digits_not_Infinity _ _ H).
  destruct (all_digits_decimal _ _ H) as (q & -> & Hq). eauto.
Qed.

Lemma numeral_non_decimal t z : numeral t = Some z -> non_decimal t = None.
Proof.
  destruct t as [|c [|x r]]; try reflexivity.
  unfold non_decimal.
  destruct (Ascii.eqb c "0") eqn:Hc; [|reflexivity].
  apply Ascii.eqb_eq in Hc. subst c.
  destruct (Ascii.eqb x "x" || Ascii.eqb x "X")%bool eqn:H1.
  { apply orb_prop in H1.
    destruct H1 as [H1|H1]; apply Ascii.eqb_eq in H1; subst x; discriminate. }
  destruct (Ascii.eqb x "o" || Ascii.eqb x "O")%bool eqn:H2.
  { apply orb_prop in H2.
    destruct H2 as [H2|H2]; apply Ascii.eqb_eq in H2; subst x; discriminate. }
  destruct (Ascii.eqb x "b" || Ascii.eqb x "B")%bool eqn:H3; [|reflexivity].
  apply orb_prop in H3.
  destruct H3 as [H3|H3]; apply Ascii.eqb_eq in H3; subst x; discriminate.
Qed.

(** The value of an integer numeral is its integer. *)
Lemma numeral_MV t z :
  numeral t = Some z -> exists q, MV t = Fin q /\ q == inject_Z z.
Proof.
  intros H. unfold MV. rewrite (numeral_non_decimal _ _ H).
  destruct t as [|c r]; [discriminate|].
  unfold numeral in H.
  destruct (Ascii.eqb c "+").
  - apply all_digits_unsigned_MV. exact H.
  - destruct (Ascii.eqb c "-").
    + destruct (all_digits r None) as [z'|] eqn:Hr; [|discriminate].
      injection H as <-.
      destruct (all_digits_unsigned_MV _ _ Hr) as (q & -> & Hq).
      eexists. split; [reflexivity|].
      rewrite Qred_correct, Hq, inject_Z_opp. reflexivity.
    + apply all_digits_unsigned_MV. exact H.
Qed.

(** On an integer numeral ToNumber gives the double nearest to the
    integer. *)
Lemma numeral_ToNumber s z :
  numeral (trim s) = Some z -> StringToNumber s = of_Z z.
Proof.
  intros H. unfold StringToNumber.
  destruct (numeral_MV _ _ H) as (q & Hq & Hz).
  destruct (trim s); [discriminate|].
  rewrite Hq. apply round53_comp. exact Hz.
Qed.

Lemma integer_param_parseInt o dflt z :
  Z.abs dflt <= 2 ^ 53 ->
  integer_param o dflt z ->
  parseInt (default (of_query o) (VNum (of_Z dflt))) = of_Z z.
Proof.
  intros Hd. destruct o as [s|]; cbn [integer_param of_query default parseInt].
  - apply numeral_parseInt.
  - intros ->. pose proof (of_Z_exact _ Hd) as E. rewrite E.
    cbn [inject_Z Qnum Qden]. rewrite Z.quot_1_r. exact E.
Qed.

Lemma integer_param_ToNumber o dflt z :
  integer_param o dflt z ->
  ToNumber (default (of_query o) (VNum (of_Z dflt))) = of_Z z.
Proof.
  destruct o as [s|]; cbn [integer_param of_query default ToNumber].
  - apply numeral_ToNumber.
  - intros ->. reflexivity.
Qed.


(** *** Pagination *)


(** Every integer of size up to 2^53 is held exactly by a double, and so is
    finite; 2^53 + 1 is the first integer that is not held exactly, and the
    integers from 10^309 on have no finite double. *)
Lemma exact_double_safe z : Z.abs z <= 2 ^ 53 -> exact_double z.
Proof. apply of_Z_exact. Qed.

Lemma finite_double_safe z : Z.abs z <= 2 ^ 53 -> finite_double z.
Proof. intros H. exists (inject_Z z). apply of_Z_exact. exact H. Qed.

Lemma doubles_at_the_limits :
  exact_double (2 ^ 53) /\ ~ exact_double (2 ^ 53 + 1) /\
  finite_double (10 ^ 308) /\ ~ finite_double (10 ^ 309).
Proof.
  split; [vm_compute; reflexivity|].
  split; [intros H; vm_compute in H; discriminate H|].
  split; [eexists; vm_compute; reflexivity|].
  intros (v & H). vm_compute in H. discriminate H.
Qed.




(** C4.  GET /api/tasks with a search term answers 500: line 102 writes to
    [filter], which line 107 declares. *)
Theorem list_with_search_answers_500 {engine : RegexEngine} req db s :
  q_search (query req) = Some s ->
  s <> EmptyString ->
  get_api_tasks req db
  = (Ok (mkResponse 500 (ErrorBody "Cannot access 'filter' before initialization")), db).
Proof.
  intros Hs Hne. apply get_api_tasks_search.
  unfold search_truthy. rewrite Hs. destruct s; [contradiction|reflexivity].
Qed.

Lemma list_with_search_answers_500_witness :
  get_api_tasks (engine := literal_engine)
    (mkRequest alice "" (mkQueryString (Some "report") None None None None) [] None)
    sample_db
  = (Ok (mkResponse 500 (ErrorBody "Cannot access 'filter' before initialization")),
     sample_db).
Proof.
  apply (list_with_search_answers_500 (engine := literal_engine) _ _ "report").
  - reflexivity.
  - discriminate.
Defined.

(** C3.  GET /api/tasks/:id answers 500 both for an identifier that is not
    an ObjectId and for an ObjectId that names no stored task. *)
Theorem get_by_id_answers_500 :
  (ObjectId_isValid "not-an-id" = false /\
   get_api_tasks_id (mkRequest alice "not-an-id" no_query [] None) sample_db
   = (Ok (mkResponse 500 (ErrorBody "mongoose is not defined")), sample_db))
  /\ (ObjectId_isValid absent_id = true /\
      find_task absent_id sample_db = None /\
      get_api_tasks_id (mkRequest alice absent_id no_query [] None) sample_db
      = (Ok (mkResponse 500 (ErrorBody "mongoose is not defined")), sample_db)).
Proof. repeat split. Qed.

(** C2.  GET /api/tasks/:id by bob for a task of alice answers 500, not 200
    with the task. *)
Theorem get_by_id_of_another_user_answers_500 :
  find_task report_id sample_db = Some report /\
  Some (user report) = castObjectId alice /\
  castObjectId bob <> castObjectId alice /\
  get_api_tasks_id (mkRequest bob report_id no_query [] None) sample_db
  = (Ok (mkResponse 500 (ErrorBody "mongoose is not defined")), sample_db).
Proof.
  repeat split. discriminate.
Qed.

(** *** Listing without a search term *)

Lemma apply_skip_nonneg k xs :
  0 <= k <= 2 ^ 53 ->
  apply_skip (Some (Fin (inject_Z k))) xs = Ok (skipn (Z.to_nat k) xs).
Proof.
  intros Hk. unfold apply_skip, safeNumberLong. cbn [inject_Z Qnum Qden].
  rewrite Z.quot_1_r.
  replace (Z.max (- 2 ^ 63) (Z.min (2 ^ 63 - 1) k)) with k by lia.
  replace (0 <=? k) with true by (symmetry; apply Z.leb_le; lia).
  reflexivity.
Qed.

Lemma apply_limit_pos l xs :
  1 <= l <= 2 ^ 53 ->
  apply_limit (Some (Fin (inject_Z l))) xs = Ok (firstn (Z.to_nat l) xs).
Proof.
  intros Hl. destruct l as [|pl|pl]; try lia.
  unfold apply_limit, safeNumberLong. cbn [num_sign sign_of inject_Z Qnum Qden].
  rewrite Z.quot_1_r.
  replace (Z.max (- 2 ^ 63) (Z.min (2 ^ 63 - 1) (Z.pos pl))) with (Z.pos pl) by lia.
  reflexivity.
Qed.

(** A sort parameter that names a path of a task is taken as it is. *)
Lemma apply_sort_by_path req xs :
  sorts_by_path req ->
  apply_sort (Some (default (of_query (q_sort (query req))) (VStr "createdAt"))) xs
  = Ok (sort_tasks (sort_of req) xs).
Proof.
  unfold sorts_by_path, sort_of.
  destruct (q_sort (query req)) as [s|]; [|reflexivity].
  intros (path & Hin & Hs). cbn [of_query default].
  cbn [schema_paths In] in Hin.
  repeat (destruct Hin as [<-|Hin]; [destruct Hs as [->| ->]; reflexivity|]).
  contradiction.
Qed.

Section Pages.
Context {engine : RegexEngine}.

(** The page that GET /api/tasks returns: the tasks of the caller that match
    the status filter are sorted, (page - 1) * limit of them are skipped, and
    limit of them are taken. *)
Lemma get_api_tasks_page req db uid p l :
  search_truthy req = false ->
  castObjectId (user_userId req) = Some uid ->
  sorts_by_path req ->
  integer_param (q_page (query req)) 1 p ->
  integer_param (q_limit (query req)) 10 l ->
  1 <= p -> 1 <= l -> p * l <= 2 ^ 53 ->
  let matching := filter (matches uid (built_filter req)) (tasks db) in
  get_api_tasks req db
  = (Ok (mkResponse 200
           (list_body req
              (firstn (Z.to_nat l)
                 (skipn (Z.to_nat ((p - 1) * l)) (sort_tasks (sort_of req) matching)))
              (List.length matching))),
     db).
Proof.
  intros Hs Huid Hsort Hp Hl Hp1 Hl1 Hpl matching.
  rewrite (get_api_tasks_no_search _ _ Hs).
  unfold Query_exec, Task_countDocuments, list_query.
  assert (H10 : Z.abs 10 <= 2 ^ 53) by lia.
  assert (Hskip : mul (sub (ToNumber (page_of req)) (of_Z 1)) (ToNumber (limit_of req))
                  = Fin (inject_Z ((p - 1) * l))).
  { unfold page_of, limit_of.
    rewrite (integer_param_ToNumber _ _ _ Hp), (integer_param_ToNumber _ _ _ Hl).
    rewrite (of_Z_exact p), (of_Z_exact l), (of_Z_exact 1) by nia.
    rewrite sub_exact by nia. apply mul_exact. nia. }
  assert (Hlimit : parseInt (limit_of req) = Fin (inject_Z l)).
  { unfold limit_of. rewrite (integer_param_parseInt _ 10 _ H10 Hl).
    apply of_Z_exact. nia. }
  rewrite Hskip, Hlimit.
  cbv [bind lift get_db ret cast_id]. cbn [conditions o_sort o_skip o_limit Query_limit
    Query_skip Query_sort Task_find].
  rewrite built_filter_user, Huid.
  rewrite (apply_sort_by_path req _ Hsort).
  rewrite apply_skip_nonneg by nia.
  rewrite apply_limit_pos by nia.
  reflexivity.
Qed.

(** GET /api/tasks answers 200 when there is no search term, the caller's
    identifier is an ObjectId, the sort parameter is absent or names a path of
    a task, and the page and the limit are absent or integers from 1 on whose
    product is at most 2^53. *)
Lemma list_without_search_answers_200 req db uid p l :
  search_truthy req = false ->
  castObjectId (user_userId req) = Some uid ->
  sorts_by_path req ->
  integer_param (q_page (query req)) 1 p ->
  integer_param (q_limit (query req)) 10 l ->
  1 <= p -> 1 <= l -> p * l <= 2 ^ 53 ->
  exists listed,
    get_api_tasks req db
    = (Ok (mkResponse 200
             (list_body req listed
                (List.length (filter (matches uid (built_filter req)) (tasks db))))),
       db).
Proof.
  intros Hs Huid Hsort Hp Hl Hp1 Hl1 Hpl.
  eexists. apply (get_api_tasks_page req db uid p l); assumption.
Qed.

End Pages.

(** *** Every route answers *)

Lemma try_catch_answers (c : M Response) db :
  exists res db', try_catch c internal_error db = (Ok res, db').
Proof.
  unfold try_catch, internal_error, ret.
  destruct (c db) as [[res|e] db']; eauto.
Qed.

Lemma validateTask_answers req (next : M Response) db :
  (exists res db', next db = (Ok res, db')) ->
  exists res db', validateTask req next db = (Ok res, db').
Proof.
  unfold validateTask. destruct (schema_validate (body req)); [|auto].
  intros _. unfold ret. eauto.
Qed.

(** Each handler ends in a response: what its body throws is caught and
    answered with 500. *)
Lemma routes_answer {engine : RegexEngine} req db :
  (exists res db', post_api_tasks req db = (Ok res, db')) /\
  (exists res db', get_api_tasks req db = (Ok res, db')) /\
  (exists res db', get_api_tasks_id req db = (Ok res, db')) /\
  (exists res db', put_api_tasks_id req db = (Ok res, db')) /\
  (exists res db', delete_api_tasks_id req db = (Ok res, db')) /\
  (exists res db', post_api_tasks_id_upload req db = (Ok res, db')).
Proof.
  repeat split;
    try apply validateTask_answers; apply try_catch_answers.
Qed.

(** *** Worked requests *)

(** A title that is one no-break space passes validateTask and is blank for
    the model: POST answers 500, and so does PUT, before it looks for the
    task. *)
Lemma blank_title_of_no_break_space :
  trim nbsp = EmptyString /\
  status_of (post_api_tasks (mkRequest alice "" no_query [("title", JStr nbsp)] None)
               sample_db) = Some 500 /\
  status_of (put_api_tasks_id
               (mkRequest alice absent_id no_query [("title", JStr nbsp)] None)
               sample_db) = Some 500.
Proof. repeat split. Qed.

(** An empty sort parameter is refused by [sort]. *)
Lemma list_with_empty_sort_answers_500 :
  get_api_tasks (engine := literal_engine)
    (mkRequest alice "" (mkQueryString None None None (Some EmptyString) None) [] None)
    sample_db
  = (Ok (mkResponse 500
           (ErrorBody ("Invalid field " ++ quoted EmptyString ++ " passed to sort()"))),
     sample_db).
Proof. reflexivity. Qed.

(** limit=2.5 lists parseInt(limit) = 2 tasks, and totalPages is the ceiling
    of 2 / 2.5. *)
Lemma list_with_fractional_limit :
  get_api_tasks (engine := literal_engine)
    (mkRequest alice "" (mkQueryString None None (Some "2.5") None None) [] None)
    busy_db
  = (Ok (mkResponse 200 (ListBody [report; call] (Some 1%Q) (Some 1%Q) 2%nat)),
     busy_db).
Proof. vm_compute. reflexivity. Qed.

(* ================================================================== *)
(** ** Further properties of the routes *)
(* ================================================================== *)

(** *** What validateTask accepts *)

Lemma joi_title_None o :
  joi_title o = None <-> exists s, o = Some (JStr s) /\ s <> EmptyString.
Proof.
  split.
  - destruct o as [[| b | text | [|c s] | text]|]; simpl; try discriminate.
    intros _. eexists. split; [reflexivity|discriminate].
  - intros (s & -> & Hs). destruct s; [contradiction|reflexivity].
Qed.

Lemma joi_description_None o :
  joi_description o = None <->
  o = None \/ exists d, o = Some (JStr d) /\ d <> EmptyString.
Proof.
  split.
  - destruct o as [[| b | text | [|c s] | text]|]; simpl; try discriminate; auto.
    intros _. right. eexists. split; [reflexivity|discriminate].
  - intros [->|(d & -> & Hd)]; [reflexivity|].
    destruct d; [contradiction|reflexivity].
Qed.

Lemma joi_status_None o :
  joi_status o = None <->
  o = None \/ exists st, o = Some (JStr st) /\ In st status_enum.
Proof.
  split.
  - destruct o as [v|]; [|auto]. unfold joi_status.
    destruct v as [| b | text | s | text]; try discriminate.
    destruct (existsb (String.eqb s) ["Pending"; "In Progress"; "Completed"]) eqn:He;
      [|discriminate].
    intros _. right. exists s. split; [reflexivity|].
    apply existsb_exists in He. destruct He as (x & Hx & Heq).
    apply String.eqb_eq in Heq. subst x. exact Hx.
  - intros [->|(st & -> & Hst)]; [reflexivity|].
    unfold joi_status.
    replace (existsb (String.eqb st) ["Pending"; "In Progress"; "Completed"]) with true;
      [reflexivity|].
    symmetry. apply existsb_exists. exists st. split; [exact Hst|apply String.eqb_refl].
Qed.

Lemma joi_unknown_None obj :
  joi_unknown obj = None <->
  forall k v, In (k, v) obj -> In k ["title"; "description"; "status"].
Proof.
  induction obj as [|[k v] obj IH]; cbn [joi_unknown In].
  - split; [intros _ k v []|reflexivity].
  - destruct (existsb (String.eqb k) ["title"; "description"; "status"]) eqn:Hk.
    + apply existsb_exists in Hk. destruct Hk as (x & Hx & Heq).
      apply String.eqb_eq in Heq. subst x.
      rewrite IH. split.
      * intros H k' v' [Heq|Hin]; [|exact (H k' v' Hin)].
        injection Heq as <- <-. exact Hx.
      * intros H k' v' Hin. apply (H k' v'). right. exact Hin.
    + split; [discriminate|]. intros H. exfalso.
      specialize (H k v (or_introl eq_refl)).
      assert (Ht : existsb (String.eqb k) ["title"; "description"; "status"] = true).
      { apply existsb_exists. exists k. split; [exact H|apply String.eqb_refl]. }
      congruence.
Qed.

Lemma schema_validate_accepted obj : schema_validate obj = None <-> accepted obj.
Proof.
  unfold schema_validate, accepted, or_else.
  rewrite <- joi_title_None, <- joi_description_None, <- joi_status_None,
    <- joi_unknown_None.
  destruct (joi_title _), (joi_description _), (joi_status _), (joi_unknown obj);
    split; try discriminate; try tauto;
    try (intros (H1 & H2 & H3 & H4); discriminate).
Qed.

(** X1.  validateTask lets a body through exactly when its title is a
    non-empty string, its description is absent or a non-empty string, its
    status is absent or one of Pending, In Progress, Completed, and it has no
    other key; otherwise it answers 400 and the handler does not run. *)
Theorem validateTask_accepts_exactly req (next : M Response) db :
  (accepted (body req) -> validateTask req next db = next db) /\
  (~ accepted (body req) ->
   exists error, validateTask req next db = (Ok (mkResponse 400 (ErrorBody error)), db)).
Proof.
  unfold validateTask. split.
  - intros H. apply schema_validate_accepted in H. rewrite H. reflexivity.
  - intros H. destruct (schema_validate (body req)) as [error|] eqn:Hs.
    + exists error. reflexivity.
    + exfalso. apply H. apply schema_validate_accepted. exact Hs.
Qed.

(** *** Creating and updating with a validated body *)

Lemma accepted_title_cast obj s :
  prop "title" obj = Some (JStr s) ->
  trimmed (castString "title" (prop "title" obj)) = Ok (Some (trim s)).
Proof. intros ->. reflexivity. Qed.

Lemma accepted_description_cast obj :
  accepted obj ->
  trimmed (castString "description" (prop "description" obj)) = Ok (body_description obj).
Proof.
  intros (_ & [H|(d & H & _)] & _); unfold body_description; rewrite H; reflexivity.
Qed.

Lemma required_title_nil s : required_title (Some s) = [] <-> s <> EmptyString.
Proof.
  destruct s; simpl; split; try discriminate; try contradiction; auto.
Qed.

(** POST /api/tasks with a validated body, a title that is not blank and a
    caller whose identifier is an ObjectId. *)
Lemma post_run_created req db s uid :
  accepted (body req) ->
  prop "title" (body req) = Some (JStr s) ->
  trim s <> EmptyString ->
  castObjectId (user_userId req) = Some uid ->
  let t := created_task (body req) s uid db in
  post_api_tasks req db
  = (Ok (mkResponse 201 (TaskBody t)),
     mkDb (tasks db ++ [t]) (N.succ (next_id db)) (now db)).
Proof.
  intros Hacc Ht Hblank Huid t.
  unfold post_api_tasks, validateTask.
  rewrite (proj2 (schema_validate_accepted _) Hacc).
  unfold try_catch. cbv [bind new_Task ret]. unfold save_new.
  cbn [d_title d_description d_user d_id d_status d_image].
  unfold validate_draft. cbn [d_title d_description d_user d_id d_status d_image].
  rewrite (accepted_title_cast _ _ Ht), (accepted_description_cast _ Hacc).
  unfold cast_id. rewrite Huid.
  rewrite (proj2 (required_title_nil _) Hblank). reflexivity.
Qed.

(** POST /api/tasks with a validated body whose title is blank. *)
Lemma post_run_blank req db s :
  accepted (body req) ->
  prop "title" (body req) = Some (JStr s) ->
  trim s = EmptyString ->
  exists error,
    post_api_tasks req db
    = (Ok (mkResponse 500 (ErrorBody error)),
       mkDb (tasks db) (N.succ (next_id db)) (now db)).
Proof.
  intros Hacc Ht Hblank.
  unfold post_api_tasks, validateTask.
  rewrite (proj2 (schema_validate_accepted _) Hacc).
  unfold try_catch, internal_error. cbv [bind new_Task ret]. unfold save_new.
  cbn [d_title d_description d_user d_id d_status d_image].
  unfold validate_draft. cbn [d_title d_description d_user d_id d_status d_image].
  rewrite (accepted_title_cast _ _ Ht), (accepted_description_cast _ Hacc).
  rewrite Hblank. cbn [required_title app].
  destruct (cast_id "user" (user_userId req)); eexists; reflexivity.
Qed.

Lemma accepted_changes obj s :
  accepted obj ->
  prop "title" obj = Some (JStr s) ->
  cast_change "title" true (prop "title" obj) = Ok (Set_to (Some (trim s))) /\
  (exists c_descr,
      cast_change "description" true (prop "description" obj) = Ok c_descr /\
      forall old, change_opt c_descr old
                  = match prop "description" obj with
                    | Some _ => body_description obj
                    | None => old
                    end) /\
  (exists c_status,
      cast_change "status" false (prop "status" obj) = Ok c_status /\
      (match c_status with Keep => [] | Set_to v => enum_status v end) = [] /\
      forall old, change_opt c_status old
                  = match prop "status" obj with
                    | Some _ => body_status obj
                    | None => old
                    end).
Proof.
  intros (_ & Hd & Hst & _) Ht. split; [rewrite Ht; reflexivity|]. split.
  - unfold body_description.
    destruct Hd as [->|(d & -> & _)]; eexists; split; try reflexivity; reflexivity.
  - unfold body_status.
    destruct Hst as [->|(st & -> & Hin)]; eexists; split; try reflexivity.
    + split; reflexivity.
    + split; [|reflexivity]. simpl. unfold enum_status.
      replace (in_enum st) with true; [reflexivity|].
      symmetry. apply existsb_exists. exists st. split; [exact Hin|apply String.eqb_refl].
Qed.

(** PUT /api/tasks/:id with a validated body: the identifier is cast, the
    update is validated, and only then is the task looked up. *)
Lemma put_run req db s :
  accepted (body req) ->
  prop "title" (body req) = Some (JStr s) ->
  exists error,
    put_api_tasks_id req db
    = match castObjectId (params_id req) with
      | None => (Ok (mkResponse 500 (ErrorBody error)), db)
      | Some oid =>
          if String.eqb (trim s) EmptyString
          then (Ok (mkResponse 500 (ErrorBody error)), db)
          else
            match find_by_id oid (tasks db) with
            | None => (Ok (mkResponse 404 (MessageBody "Task not found")), db)
            | Some t =>
                let t' := updated_task (body req) s (now db) t in
                (Ok (mkResponse 200 (TaskBody t')),
                 with_tasks db (replace_first oid t' (tasks db)))
            end
      end.
Proof.
  intros Hacc Ht.
  destruct (accepted_changes _ _ Hacc Ht)
    as (Hc1 & (c_descr & Hc2 & Hd) & (c_status & Hc3 & Hv & Hs)).
  unfold put_api_tasks_id, validateTask.
  rewrite (proj2 (schema_validate_accepted _) Hacc).
  unfold try_catch, internal_error, Task_findByIdAndUpdate.
  cbv [bind lift get_db ret put_tasks]. unfold cast_id.
  destruct (castObjectId (params_id req)) as [oid|]; [|eexists; reflexivity].
  rewrite Hc1, Hc2, Hc3. unfold validate_update. rewrite Hv, app_nil_r.
  destruct (trim s) as [|c r] eqn:Htrim.
  - eexists. reflexivity.
  - exists EmptyString. cbn [required_title String.eqb].
    destruct (find_by_id oid (tasks db)) as [t|]; [|reflexivity].
    unfold updated_task. rewrite Htrim, Hd, Hs. reflexivity.
Qed.

Lemma post_run_uncastable req db s :
  accepted (body req) ->
  prop "title" (body req) = Some (JStr s) ->
  castObjectId (user_userId req) = None ->
  exists error,
    post_api_tasks req db
    = (Ok (mkResponse 500 (ErrorBody error)),
       mkDb (tasks db) (N.succ (next_id db)) (now db)).
Proof.
  intros Hacc Ht Huid.
  unfold post_api_tasks, validateTask.
  rewrite (proj2 (schema_validate_accepted _) Hacc).
  unfold try_catch, internal_error. cbv [bind new_Task ret]. unfold save_new.
  cbn [d_title d_description d_user d_id d_status d_image].
  unfold validate_draft. cbn [d_title d_description d_user d_id d_status d_image].
  rewrite (accepted_title_cast _ _ Ht), (accepted_description_cast _ Hacc).
  unfold cast_id. rewrite Huid.
  destruct (trim s); eexists; reflexivity.
Qed.

Lemma post_run_rejected req db :
  ~ accepted (body req) ->
  exists error,
    post_api_tasks req db = (Ok (mkResponse 400 (ErrorBody error)), db).
Proof.
  intros H. unfold post_api_tasks, validateTask.
  destruct (schema_validate (body req)) as [error|] eqn:Hs; [eexists; reflexivity|].
  exfalso. apply H. apply schema_validate_accepted. exact Hs.
Qed.

Lemma put_run_rejected req db :
  ~ accepted (body req) ->
  exists error,
    put_api_tasks_id req db = (Ok (mkResponse 400 (ErrorBody error)), db).
Proof.
  intros H. unfold put_api_tasks_id, validateTask.
  destruct (schema_validate (body req)) as [error|] eqn:Hs; [eexists; reflexivity|].
  exfalso. apply H. apply schema_validate_accepted. exact Hs.
Qed.

Lemma accepted_dec obj : accepted obj \/ ~ accepted obj.
Proof.
  destruct (schema_validate obj) eqn:Hs.
  - right. intros H. apply schema_validate_accepted in H. congruence.
  - left. apply schema_validate_accepted. exact Hs.
Qed.

(** X2.  POST /api/tasks and PUT /api/tasks/:id answer 400 exactly when the
    body fails the schema of validateTask, and then leave the collection as it
    was: a 400 never comes from the handler behind the middleware. *)
Theorem status_400_exactly_when_rejected req db :
  (status_of (post_api_tasks req db) = Some 400 <-> ~ accepted (body req)) /\
  (status_of (put_api_tasks_id req db) = Some 400 <-> ~ accepted (body req)) /\
  (~ accepted (body req) ->
   snd (post_api_tasks req db) = db /\ snd (put_api_tasks_id req db) = db).
Proof.
  split; [|split].
  - split.
    + intros H Hacc. pose proof Hacc as ((s & Ht & _) & _).
      destruct (castObjectId (user_userId req)) as [uid|] eqn:Huid.
      * destruct (trim s) as [|c r] eqn:Htrim.
        -- destruct (post_run_blank req db s Hacc Ht Htrim) as (e & He).
           rewrite He in H. discriminate.
        -- rewrite (post_run_created req db s uid Hacc Ht) in H;
             [discriminate|congruence|exact Huid].
      * destruct (post_run_uncastable req db s Hacc Ht Huid) as (e & He).
        rewrite He in H. discriminate.
    + intros H. destruct (post_run_rejected req db H) as (e & ->). reflexivity.
  - split.
    + intros H Hacc. pose proof Hacc as ((s & Ht & _) & _).
      destruct (put_run req db s Hacc Ht) as (e & He). rewrite He in H.
      destruct (castObjectId (params_id req)); [|discriminate].
      destruct (String.eqb (trim s) EmptyString); [discriminate|].
      destruct (find_by_id _ _); discriminate.
    + intros H. destruct (put_run_rejected req db H) as (e & ->). reflexivity.
  - intros H.
    destruct (post_run_rejected req db H) as (e1 & ->).
    destruct (put_run_rejected req db H) as (e2 & ->). split; reflexivity.
Qed.

Lemma status_400_exactly_when_rejected_witness :
  status_of (post_api_tasks
               (mkRequest alice report_id no_query
                  [("title", JStr "Plan trip"); ("user", JStr bob)] None) sample_db)
  = Some 400.
Proof.
  apply (proj1 (status_400_exactly_when_rejected _ _)).
  intros H. apply schema_validate_accepted in H. discriminate H.
Defined.

Lemma validateTask_accepts_exactly_witness :
  validateTask
    (mkRequest alice "" no_query
       [("title", JStr "Plan trip"); ("status", JStr "In Progress")] None)
    (ret (mkResponse 200 (MessageBody "next"))) sample_db
  = (Ok (mkResponse 200 (MessageBody "next")), sample_db)
  /\ exists error,
       validateTask
         (mkRequest alice "" no_query [("title", JStr "Plan trip"); ("done", JBool true)]
            None)
         (ret (mkResponse 200 (MessageBody "next"))) sample_db
       = (Ok (mkResponse 400 (ErrorBody error)), sample_db).
Proof.
  split.
  - apply (proj1 (validateTask_accepts_exactly _ _ _)).
    apply schema_validate_accepted. reflexivity.
  - apply (proj2 (validateTask_accepts_exactly _ _ _)).
    intros H. apply schema_validate_accepted in H. discriminate H.
Defined.

(** X3.  A task that POST /api/tasks creates is owned by the caller, carries
    the trimmed title and description of the body, has status Pending and no
    image, has both timestamps at the time of creation, and is added after the
    tasks stored before, which stay as they were. *)
Theorem post_stores_the_callers_task req db s uid :
  accepted (body req) ->
  prop "title" (body req) = Some (JStr s) ->
  trim s <> EmptyString ->
  castObjectId (user_userId req) = Some uid ->
  exists t db',
    post_api_tasks req db = (Ok (mkResponse 201 (TaskBody t)), db') /\
    tasks db' = (tasks db ++ [t])%list /\
    user t = uid /\
    title t = trim s /\
    description t = body_description (body req) /\
    status t = Some "Pending" /\
    image t = None /\
    createdAt t = now db /\ updatedAt t = now db.
Proof.
  intros Hacc Ht Hblank Huid.
  eexists. eexists. split; [apply (post_run_created _ _ _ _ Hacc Ht Hblank Huid)|].
  repeat split.
Qed.

Lemma post_stores_the_callers_task_witness :
  exists t db',
    post_api_tasks
      (mkRequest bob "" no_query
         [("title", JStr "  Plan trip "); ("description", JStr " by train ")] None)
      sample_db
    = (Ok (mkResponse 201 (TaskBody t)), db') /\
    tasks db' = (tasks sample_db ++ [t])%list /\
    user t = bob_id /\
    title t = "Plan trip" /\
    description t = Some "by train" /\
    status t = Some "Pending" /\
    image t = None /\
    createdAt t = 5000 /\ updatedAt t = 5000.
Proof.
  apply (post_stores_the_callers_task
           (mkRequest bob "" no_query
              [("title", JStr "  Plan trip "); ("description", JStr " by train ")] None)
           sample_db "  Plan trip " bob_id).
  - apply schema_validate_accepted. reflexivity.
  - reflexivity.
  - discriminate.
  - reflexivity.
Defined.

(** X4.  POST /api/tasks answers 201 exactly when the body passes the schema,
    its title is not blank and the caller's identifier is an ObjectId.  A
    title of white space only passes validateTask and then fails the model's
    required title, trimmed first: the answer is 500, not 400, and no task is
    stored. *)
Theorem post_answers_201_exactly_when req db :
  (status_of (post_api_tasks req db) = Some 201 <->
   accepted (body req) /\
   (exists s, prop "title" (body req) = Some (JStr s) /\ trim s <> EmptyString) /\
   castObjectId (user_userId req) <> None)
  /\ (forall s,
        accepted (body req) ->
        prop "title" (body req) = Some (JStr s) ->
        trim s = EmptyString ->
        status_of (post_api_tasks req db) = Some 500 /\
        tasks_after (post_api_tasks req db) = tasks db).
Proof.
  split.
  - split.
    + intros H.
      destruct (accepted_dec (body req)) as [Hacc|Hrej].
      * pose proof Hacc as ((s & Ht & _) & _).
        destruct (castObjectId (user_userId req)) as [uid|] eqn:Huid.
        -- destruct (trim s) as [|c r] eqn:Htrim.
           ++ destruct (post_run_blank req db s Hacc Ht Htrim) as (e & He).
              rewrite He in H. discriminate.
           ++ split; [exact Hacc|]. split; [|discriminate].
              exists s. split; [exact Ht|]. rewrite Htrim. discriminate.
        -- destruct (post_run_uncastable req db s Hacc Ht Huid) as (e & He).
           rewrite He in H. discriminate.
      * destruct (post_run_rejected req db Hrej) as (e & He).
        rewrite He in H. discriminate.
    + intros (Hacc & (s & Ht & Hblank) & Huid).
      destruct (castObjectId (user_userId req)) as [uid|] eqn:Hu; [|contradiction].
      rewrite (post_run_created req db s uid Hacc Ht Hblank Hu). reflexivity.
  - intros s Hacc Ht Hblank.
    destruct (post_run_blank req db s Hacc Ht Hblank) as (e & ->).
    split; reflexivity.
Qed.

Lemma post_answers_201_exactly_when_witness :
  status_of (post_api_tasks (mkRequest alice "" no_query [("title", JStr nbsp)] None)
               sample_db) = Some 500 /\
  tasks_after (post_api_tasks (mkRequest alice "" no_query [("title", JStr nbsp)] None)
                 sample_db) = tasks sample_db.
Proof.
  apply (proj2 (post_answers_201_exactly_when
                  (mkRequest alice "" no_query [("title", JStr nbsp)] None) sample_db)
           nbsp).
  - apply schema_validate_accepted. reflexivity.
  - reflexivity.
  - reflexivity.
Defined.



(** X6.  PUT /api/tasks/:id with a validated body that does not reach a
    stored task: an identifier that is not an ObjectId gives 500, a blank
    title gives 500 even for an unknown identifier, and an ObjectId that names
    no task gives 404; in all three the collection is as it was. *)
Theorem put_failures req db s :
  accepted (body req) ->
  prop "title" (body req) = Some (JStr s) ->
  (castObjectId (params_id req) = None ->
   status_of (put_api_tasks_id req db) = Some 500 /\ snd (put_api_tasks_id req db) = db)
  /\ (castObjectId (params_id req) <> None -> trim s = EmptyString ->
      status_of (put_api_tasks_id req db) = Some 500 /\
      snd (put_api_tasks_id req db) = db)
  /\ (trim s <> EmptyString -> find_task (params_id req) db = None ->
      castObjectId (params_id req) <> None ->
      put_api_tasks_id req db
      = (Ok (mkResponse 404 (MessageBody "Task not found")), db)).
Proof.
  intros Hacc Ht.
  destruct (put_run req db s Hacc Ht) as (e & ->).
  unfold find_task.
  destruct (castObjectId (params_id req)) as [oid|].
  - split; [discriminate|]. split.
    + intros _ ->. split; reflexivity.
    + intros Hblank Hfind _.
      replace (String.eqb (trim s) EmptyString) with false
        by (symmetry; apply String.eqb_neq; exact Hblank).
      rewrite Hfind. reflexivity.
  - split; [intros _; split; reflexivity|].
    split; [intros H; contradiction|intros _ _ H; contradiction].
Qed.

Lemma put_failures_witness :
  put_api_tasks_id
    (mkRequest alice absent_id no_query [("title", JStr "Write report")] None) sample_db
  = (Ok (mkResponse 404 (MessageBody "Task not found")), sample_db).
Proof.
  assert (Hacc : accepted [("title", JStr "Write report")]).
  { apply schema_validate_accepted. reflexivity. }
  apply (proj2 (proj2 (put_failures
                         (mkRequest alice absent_id no_query
                            [("title", JStr "Write report")] None)
                         sample_db "Write report" Hacc eq_refl))).
  - discriminate.
  - reflexivity.
  - discriminate.
Defined.

(** *** Deleting *)

Lemma delete_run req db :
  delete_api_tasks_id req db
  = match castObjectId (params_id req) with
    | None =>
        (Ok (mkResponse 500
               (ErrorBody (message (CastError "ObjectId" (params_id req) "_id")))), db)
    | Some oid =>
        match find_by_id oid (tasks db) with
        | None => (Ok (mkResponse 404 (MessageBody "Task not found")), db)
        | Some _ =>
            (Ok (mkResponse 200 (MessageBody "Task deleted successfully")),
             with_tasks db (remove_first oid (tasks db)))
        end
    end.
Proof.
  unfold delete_api_tasks_id, try_catch, internal_error, Task_findByIdAndDelete.
  cbv [bind lift get_db ret put_tasks cast_id].
  destruct (castObjectId (params_id req)) as [oid|]; [|reflexivity].
  destruct (find_by_id oid (tasks db)); reflexivity.
Qed.

Lemma find_by_id_None oid l : find_by_id oid l = None <-> ~ In oid (map _id l).
Proof.
  unfold find_by_id. induction l as [|x l IH]; simpl.
  - tauto.
  - destruct (N.eqb (_id x) oid) eqn:Hx.
    + apply N.eqb_eq in Hx. split; [discriminate|]. intros H. exfalso. auto.
    + apply N.eqb_neq in Hx. rewrite IH. tauto.
Qed.

Lemma remove_first_find_same oid l :
  NoDup (map _id l) -> find_by_id oid (remove_first oid l) = None.
Proof.
  induction l as [|x l IH]; simpl; intros Hnd; [reflexivity|].
  inversion Hnd as [|? ? Hnotin Hnd']; subst.
  destruct (N.eqb (_id x) oid) eqn:Hx.
  - apply N.eqb_eq in Hx. subst oid. apply find_by_id_None. exact Hnotin.
  - unfold find_by_id in *. simpl. rewrite Hx. auto.
Qed.

Lemma remove_first_find_other oid oid2 l :
  oid2 <> oid -> find_by_id oid2 (remove_first oid l) = find_by_id oid2 l.
Proof.
  intros Hne. unfold find_by_id. induction l as [|x l IH]; simpl; [reflexivity|].
  destruct (N.eqb (_id x) oid) eqn:Hx.
  - apply N.eqb_eq in Hx.
    replace (N.eqb (_id x) oid2) with false; [reflexivity|].
    symmetry. apply N.eqb_neq. congruence.
  - simpl. rewrite IH. reflexivity.
Qed.

Lemma remove_first_length oid l t :
  find_by_id oid l = Some t -> S (List.length (remove_first oid l)) = List.length l.
Proof.
  unfold find_by_id. induction l as [|x l IH]; simpl; [discriminate|].
  destruct (N.eqb (_id x) oid); [reflexivity|].
  intros H. simpl. rewrite (IH H). reflexivity.
Qed.

Lemma remove_first_In oid l t : In t (remove_first oid l) -> In t l.
Proof.
  induction l as [|x l IH]; simpl; auto.
  destruct (N.eqb (_id x) oid); simpl; intuition.
Qed.

Lemma remove_first_NoDup oid l :
  NoDup (map _id l) -> NoDup (map _id (remove_first oid l)).
Proof.
  induction l as [|x l IH]; simpl; intros Hnd; [constructor|].
  inversion Hnd as [|? ? Hnotin Hnd']; subst.
  destruct (N.eqb (_id x) oid); [exact Hnd'|].
  simpl. constructor; [|auto].
  intros Hin. apply Hnotin. apply in_map_iff in Hin. destruct Hin as (y & Hy & Hin).
  apply in_map_iff. exists y. split; [exact Hy|]. eapply remove_first_In. exact Hin.
Qed.

(** X7.  DELETE /api/tasks/:id with the identifier of a stored task answers
    200 and removes that task and no other: afterwards the identifier names
    no task, every other identifier names the task it named before, and the
    collection is one task shorter. *)
Theorem delete_removes_the_named_task req db oid t :
  unique_ids db ->
  castObjectId (params_id req) = Some oid ->
  find_by_id oid (tasks db) = Some t ->
  exists db',
    delete_api_tasks_id req db
    = (Ok (mkResponse 200 (MessageBody "Task deleted successfully")), db') /\
    find_by_id oid (tasks db') = None /\
    (forall oid2, oid2 <> oid -> find_by_id oid2 (tasks db') = find_by_id oid2 (tasks db)) /\
    S (List.length (tasks db')) = List.length (tasks db) /\
    unique_ids db'.
Proof.
  unfold unique_ids. intros Hnd Hoid Hfind.
  rewrite delete_run, Hoid, Hfind.
  eexists. split; [reflexivity|]. simpl. repeat split.
  - apply remove_first_find_same. exact Hnd.
  - intros oid2 Hne. apply remove_first_find_other. exact Hne.
  - apply (remove_first_length _ _ t). exact Hfind.
  - apply remove_first_NoDup. exact Hnd.
Qed.

Lemma delete_removes_the_named_task_witness :
  exists db',
    delete_api_tasks_id (mkRequest bob report_id no_query [] None) sample_db
    = (Ok (mkResponse 200 (MessageBody "Task deleted successfully")), db') /\
    find_by_id 1%N (tasks db') = None /\
    (forall oid2, oid2 <> 1%N ->
       find_by_id oid2 (tasks db') = find_by_id oid2 (tasks sample_db)) /\
    S (List.length (tasks db')) = List.length (tasks sample_db) /\
    unique_ids db'.
Proof.
  apply (delete_removes_the_named_task
           (mkRequest bob report_id no_query [] None) sample_db 1%N report).
  - unfold unique_ids. simpl. repeat constructor; simpl; intuition discriminate.
  - reflexivity.
  - reflexivity.
Defined.

(** X8.  DELETE /api/tasks/:id that reaches no task: an identifier that is
    not an ObjectId gives 500 (the route has no check of the format), an
    ObjectId that names no task gives 404, and the collection is as it was.
    In particular a second DELETE of the same task answers 404. *)
Theorem delete_failures req db :
  (castObjectId (params_id req) = None ->
   status_of (delete_api_tasks_id req db) = Some 500 /\
   snd (delete_api_tasks_id req db) = db)
  /\ (castObjectId (params_id req) <> None -> find_task (params_id req) db = None ->
      delete_api_tasks_id req db
      = (Ok (mkResponse 404 (MessageBody "Task not found")), db))
  /\ (unique_ids db ->
      status_of (delete_api_tasks_id req db) = Some 200 ->
      delete_api_tasks_id req (snd (delete_api_tasks_id req db))
      = (Ok (mkResponse 404 (MessageBody "Task not found")),
         snd (delete_api_tasks_id req db))).
Proof.
  unfold find_task, unique_ids. rewrite delete_run.
  destruct (castObjectId (params_id req)) as [oid|] eqn:Hoid.
  - split; [discriminate|]. split.
    + intros _ ->. reflexivity.
    + intros Hnd. destruct (find_by_id oid (tasks db)) as [t|] eqn:Hfind; [|discriminate].
      intros _. rewrite delete_run, Hoid. simpl.
      rewrite (remove_first_find_same _ _ Hnd). reflexivity.
  - split; [intros _; split; reflexivity|].
    split; [intros H; contradiction|intros _; discriminate].
Qed.

Lemma delete_failures_witness :
  delete_api_tasks_id (mkRequest bob report_id no_query [] None)
    (snd (delete_api_tasks_id (mkRequest bob report_id no_query [] None) sample_db))
  = (Ok (mkResponse 404 (MessageBody "Task not found")),
     snd (delete_api_tasks_id (mkRequest bob report_id no_query [] None) sample_db)).
Proof.
  apply (proj2 (proj2 (delete_failures (mkRequest bob report_id no_query [] None)
                         sample_db))).
  - unfold unique_ids. simpl. repeat constructor; simpl; intuition discriminate.
  - reflexivity.
Defined.

(** *** More on uploading *)

Lemma upload_run_missing req db f :
  file req = Some f ->
  post_api_tasks_id_upload req db
  = match castObjectId (params_id req) with
    | None =>
        (Ok (mkResponse 500
               (ErrorBody (message (CastError "ObjectId" (params_id req) "_id")))), db)
    | Some oid =>
        match find_by_id oid (tasks db) with
        | None => (Ok (mkResponse 404 (ErrorBody "Task not found")), db)
        | Some _ => post_api_tasks_id_upload req db
        end
    end.
Proof.
  intros Hf.
  destruct (castObjectId (params_id req)) as [oid|] eqn:Hoid.
  - destruct (find_by_id oid (tasks db)) eqn:Hfind; [reflexivity|].
    unfold post_api_tasks_id_upload, try_catch. rewrite Hf.
    cbv [bind Task_findById lift cast_id get_db ret]. rewrite Hoid, Hfind. reflexivity.
  - unfold post_api_tasks_id_upload, try_catch. rewrite Hf.
    cbv [bind Task_findById lift cast_id get_db ret]. rewrite Hoid. reflexivity.
Qed.

(** One upload to a stored, valid task. *)
Lemma upload_step req db f oid t :
  file req = Some f ->
  castObjectId (params_id req) = Some oid ->
  find_by_id oid (tasks db) = Some t ->
  validate_task t = [] ->
  exists t' db',
    post_api_tasks_id_upload req db
    = (Ok (mkResponse 200 (UploadBody "Image uploaded successfully" t')), db') /\
    find_by_id oid (tasks db') = Some t' /\
    image t' = Some ("/uploads/" ++ filename f) /\
    same_but_image t t' /\
    validate_task t' = [].
Proof.
  intros Hf Hoid Hfound Hok.
  rewrite (upload_with_file _ _ _ _ _ Hf Hoid Hfound Hok).
  destruct (find_by_id_Some _ _ _ Hfound) as [_ Hid].
  destruct (option_eqb (image t) (image (with_image ("/uploads/" ++ filename f) t)))
    eqn:Hsame.
  - apply option_eqb_eq in Hsame. simpl in Hsame.
    assert (Heq : with_image ("/uploads/" ++ filename f) t = t).
    { destruct t; simpl in *. unfold with_image. simpl. congruence. }
    rewrite Heq. exists t, db. repeat split; auto.
  - eexists. eexists. split; [reflexivity|]. split; [|split; [reflexivity|]].
    + simpl. rewrite Hid. apply (find_replace_first _ _ t); auto.
    + split; [unfold same_but_image; simpl; auto 10|exact Hok].
Qed.

(** X9.  POST /api/tasks/:id/upload with a file that reaches no task: an
    identifier that is not an ObjectId gives 500, an ObjectId that names no
    task gives 404 with the text under the key error, and the collection is
    as it was. *)
Theorem upload_failures req db f :
  file req = Some f ->
  (castObjectId (params_id req) = None ->
   status_of (post_api_tasks_id_upload req db) = Some 500 /\
   snd (post_api_tasks_id_upload req db) = db)
  /\ (castObjectId (params_id req) <> None -> find_task (params_id req) db = None ->
      post_api_tasks_id_upload req db
      = (Ok (mkResponse 404 (ErrorBody "Task not found")), db)).
Proof.
  intros Hf. unfold find_task. rewrite (upload_run_missing _ _ _ Hf).
  destruct (castObjectId (params_id req)) as [oid|].
  - split; [discriminate|]. intros _ ->. reflexivity.
  - split; [intros _; split; reflexivity|intros H; contradiction].
Qed.

Lemma upload_failures_witness :
  post_api_tasks_id_upload
    (mkRequest alice absent_id no_query [] (Some (mkFile "chart.png"))) sample_db
  = (Ok (mkResponse 404 (ErrorBody "Task not found")), sample_db).
Proof.
  apply (proj2 (upload_failures
                  (mkRequest alice absent_id no_query [] (Some (mkFile "chart.png")))
                  sample_db (mkFile "chart.png") eq_refl)).
  - discriminate.
  - reflexivity.
Defined.

(** X10.  A later upload replaces the image of an earlier one: after two
    uploads to the same stored task, the task has the image of the second
    file and is otherwise, up to the update time, the task it was before the
    first. *)
Theorem upload_last_file_wins req1 req2 db f1 f2 t :
  valid_db db ->
  params_id req2 = params_id req1 ->
  file req1 = Some f1 ->
  file req2 = Some f2 ->
  find_task (params_id req1) db = Some t ->
  exists t2 db2,
    post_api_tasks_id_upload req2 (snd (post_api_tasks_id_upload req1 db))
    = (Ok (mkResponse 200 (UploadBody "Image uploaded successfully" t2)), db2) /\
    find_task (params_id req1) db2 = Some t2 /\
    image t2 = Some ("/uploads/" ++ filename f2) /\
    same_but_image t t2.
Proof.
  intros Hvalid Hid Hf1 Hf2 Hfind.
  destruct (valid_db_find _ _ _ Hvalid Hfind) as (oid & Hoid & Hfound & Hok).
  destruct (upload_step req1 db f1 oid t Hf1 Hoid Hfound Hok)
    as (t1 & db1 & -> & Hfound1 & _ & Hsame1 & Hok1).
  simpl.
  assert (Hoid2 : castObjectId (params_id req2) = Some oid) by congruence.
  destruct (upload_step req2 db1 f2 oid t1 Hf2 Hoid2 Hfound1 Hok1)
    as (t2 & db2 & -> & Hfound2 & Himg & Hsame2 & _).
  exists t2, db2. split; [reflexivity|].
  split; [unfold find_task; rewrite Hoid; exact Hfound2|].
  split; [exact Himg|].
  unfold same_but_image in *. intuition congruence.
Qed.

Lemma upload_last_file_wins_witness :
  exists t2 db2,
    post_api_tasks_id_upload
      (mkRequest alice report_id no_query [] (Some (mkFile "b.png")))
      (snd (post_api_tasks_id_upload
              (mkRequest bob report_id no_query [] (Some (mkFile "a.png"))) sample_db))
    = (Ok (mkResponse 200 (UploadBody "Image uploaded successfully" t2)), db2) /\
    find_task report_id db2 = Some t2 /\
    image t2 = Some "/uploads/b.png" /\
    same_but_image report t2.
Proof.
  apply (upload_last_file_wins
           (mkRequest bob report_id no_query [] (Some (mkFile "a.png")))
           (mkRequest alice report_id no_query [] (Some (mkFile "b.png")))
           sample_db (mkFile "a.png") (mkFile "b.png") report).
  - repeat constructor.
  - reflexivity.
  - reflexivity.
  - reflexivity.
  - reflexivity.
Defined.

(** *** What the routes write *)

Lemma put_tasks_after req db :
  snd (put_api_tasks_id req db) = db
  \/ exists s oid t,
       prop "title" (body req) = Some (JStr s) /\
       find_by_id oid (tasks db) = Some t /\
       put_api_tasks_id req db
       = (Ok (mkResponse 200 (TaskBody (updated_task (body req) s (now db) t))),
          with_tasks db (replace_first oid (updated_task (body req) s (now db) t)
                           (tasks db))).
Proof.
  destruct (accepted_dec (body req)) as [Hacc|Hrej].
  - pose proof Hacc as ((s & Ht & _) & _).
    destruct (put_run req db s Hacc Ht) as (e & He). rewrite He.
    destruct (castObjectId (params_id req)) as [oid|]; [|left; reflexivity].
    destruct (String.eqb (trim s) EmptyString); [left; reflexivity|].
    destruct (find_by_id oid (tasks db)) as [t|] eqn:Hfind; [|left; reflexivity].
    right. exists s, oid, t. auto.
  - destruct (put_run_rejected req db Hrej) as (e & ->). left. reflexivity.
Qed.

Lemma upload_tasks_after req db :
  snd (post_api_tasks_id_upload req db) = db
  \/ exists f oid t,
       find_by_id oid (tasks db) = Some t /\
       post_api_tasks_id_upload req db
       = (Ok (mkResponse 200
                (UploadBody "Image uploaded successfully"
                   (touch (with_image ("/uploads/" ++ filename f) t) (now db)))),
          with_tasks db
            (replace_first oid (touch (with_image ("/uploads/" ++ filename f) t) (now db))
               (tasks db))).
Proof.
  destruct (file req) as [f|] eqn:Hf.
  - destruct (castObjectId (params_id req)) as [oid|] eqn:Hoid.
    + destruct (find_by_id oid (tasks db)) as [t|] eqn:Hfind.
      * destruct (validate_task t) as [|err errs] eqn:Hok.
        -- rewrite (upload_with_file _ _ _ _ _ Hf Hoid Hfind Hok).
           destruct (option_eqb _ _); [left; reflexivity|].
           right. exists f, oid, t. split; [exact Hfind|].
           destruct (find_by_id_Some _ _ _ Hfind) as [_ ->]. reflexivity.
        -- left. unfold post_api_tasks_id_upload, try_catch, internal_error.
           rewrite Hf. cbv [bind Task_findById lift cast_id get_db ret].
           rewrite Hoid, Hfind. cbn [option_map]. unfold save.
           change (validate_task
                     (current (set_image ("/uploads/" ++ filename f) (mkDoc t t))))
             with (validate_task t).
           rewrite Hok. reflexivity.
      * left. rewrite (upload_run_missing _ _ _ Hf), Hoid, Hfind. reflexivity.
    + left. rewrite (upload_run_missing _ _ _ Hf), Hoid. reflexivity.
  - left. unfold post_api_tasks_id_upload, try_catch. rewrite Hf. reflexivity.
Qed.

Lemma post_tasks_after req db :
  (status_of (post_api_tasks req db) <> Some 201 /\
   tasks_after (post_api_tasks req db) = tasks db)
  \/ exists t,
       status_of (post_api_tasks req db) = Some 201 /\
       tasks_after (post_api_tasks req db) = (tasks db ++ [t])%list /\
       castObjectId (user_userId req) = Some (user t).
Proof.
  destruct (post_api_tasks req db) as [[res|e] db'] eqn:H.
  - destruct (post_api_tasks_cases _ _ _ _ H)
      as [(error & _ & -> & ->)
         | [(error & _ & -> & Hdb) | (t & _ & -> & Hdb & _ & _ & Hu & _)]].
    + left. split; [discriminate|reflexivity].
    + left. split; [discriminate|exact Hdb].
    + right. exists t. auto.
  - exfalso. unfold post_api_tasks in H.
    match type of H with
    | validateTask _ (try_catch ?c _) _ = _ =>
        destruct (validateTask_answers req _ db (try_catch_answers c db)) as (r & d & Hr)
    end.
    rewrite Hr in H. discriminate.
Qed.

Section Writes.
Context {engine : RegexEngine}.

Lemma Query_exec_db q db : snd (Query_exec q db) = db.
Proof.
  unfold Query_exec, bind, lift, get_db.
  destruct (cast_id _ _); [|reflexivity].
  destruct (apply_sort _ _); [|reflexivity].
  destruct (apply_skip _ _); [|reflexivity].
  destruct (apply_limit _ _); reflexivity.
Qed.

Lemma Task_countDocuments_db f db : snd (Task_countDocuments f db) = db.
Proof.
  unfold Task_countDocuments, bind, lift, get_db, ret.
  destruct (cast_id _ _); reflexivity.
Qed.

Lemma get_api_tasks_db req db : snd (get_api_tasks req db) = db.
Proof.
  destruct (search_truthy req) eqn:Hs.
  - rewrite (get_api_tasks_search _ _ Hs). reflexivity.
  - rewrite (get_api_tasks_no_search _ _ Hs).
    pose proof (Query_exec_db (list_query req) db) as Hq.
    destruct (Query_exec (list_query req) db) as [[l|e] db1]; simpl in Hq; subst db1;
      [|reflexivity].
    pose proof (Task_countDocuments_db (built_filter req) db) as Hc.
    destruct (Task_countDocuments (built_filter req) db) as [[n|e] db2];
      simpl in Hc; subst db2; reflexivity.
Qed.

(** X11.  The two GET routes never write, and the other routes write only
    when they answer 200 or 201: a request answered with 400, 404 or 500
    leaves every stored task as it was. *)
Theorem only_success_writes req db :
  snd (get_api_tasks req db) = db /\
  snd (get_api_tasks_id req db) = db /\
  (status_of (post_api_tasks req db) <> Some 201 ->
   tasks_after (post_api_tasks req db) = tasks db) /\
  (status_of (put_api_tasks_id req db) <> Some 200 ->
   snd (put_api_tasks_id req db) = db) /\
  (status_of (delete_api_tasks_id req db) <> Some 200 ->
   snd (delete_api_tasks_id req db) = db) /\
  (status_of (post_api_tasks_id_upload req db) <> Some 200 ->
   snd (post_api_tasks_id_upload req db) = db).
Proof.
  split; [apply get_api_tasks_db|]. split; [reflexivity|]. split; [|split; [|split]].
  - destruct (post_tasks_after req db) as [[_ H]|(t & H & _)]; [auto|].
    intros Hne. contradiction.
  - destruct (put_tasks_after req db) as [H|(s & oid & t & _ & _ & ->)]; [auto|].
    intros Hne. exfalso. apply Hne. reflexivity.
  - rewrite delete_run. destruct (castObjectId (params_id req)); [|reflexivity].
    destruct (find_by_id _ _); [|reflexivity].
    intros Hne. exfalso. apply Hne. reflexivity.
  - destruct (upload_tasks_after req db) as [H|(f & oid & t & _ & ->)]; [auto|].
    intros Hne. exfalso. apply Hne. reflexivity.
Qed.

End Writes.

Lemma only_success_writes_witness :
  snd (put_api_tasks_id
         (mkRequest alice absent_id no_query [("title", JStr "Write report")] None)
         sample_db) = sample_db.
Proof.
  apply (proj1 (proj2 (proj2 (proj2 (only_success_writes (engine := literal_engine)
                                       (mkRequest alice absent_id no_query
                                          [("title", JStr "Write report")] None)
                                       sample_db))))).
  discriminate.
Defined.

Lemma same_owner_refl t : same_owner t t.
Proof. unfold same_owner. auto. Qed.

(** X12.  No route changes the owner of a stored task.  After PUT and after
    an upload the collection holds the same tasks in the same order, each
    with the identifier, owner and creation time it had; after DELETE every
    task left was there before; after POST every task was there before or is
    owned by the caller. *)
Theorem no_route_changes_an_owner req db :
  Forall2 same_owner (tasks db) (tasks_after (put_api_tasks_id req db)) /\
  Forall2 same_owner (tasks db) (tasks_after (post_api_tasks_id_upload req db)) /\
  (forall t, In t (tasks_after (delete_api_tasks_id req db)) -> In t (tasks db)) /\
  (forall t, In t (tasks_after (post_api_tasks req db)) ->
     In t (tasks db) \/ castObjectId (user_userId req) = Some (user t)).
Proof.
  unfold tasks_after. split; [|split; [|split]].
  - destruct (put_tasks_after req db) as [->|(s & oid & t & _ & Hfind & ->)].
    + apply Forall2_refl. exact same_owner_refl.
    + simpl. apply (replace_first_Forall2 _ _ _ t); auto.
      * exact same_owner_refl.
      * unfold same_owner. simpl. auto.
  - destruct (upload_tasks_after req db) as [->|(f & oid & t & Hfind & ->)].
    + apply Forall2_refl. exact same_owner_refl.
    + simpl. apply (replace_first_Forall2 _ _ _ t); auto.
      * exact same_owner_refl.
      * unfold same_owner. simpl. auto.
  - rewrite delete_run. destruct (castObjectId (params_id req)); [|auto].
    destruct (find_by_id _ _); [|auto].
    simpl. intros t'. apply remove_first_In.
  - intros t Hin.
    destruct (post_tasks_after req db) as [[_ H]|(t' & _ & H & Hu)];
      unfold tasks_after in H; rewrite H in Hin; [auto|].
    apply in_app_or in Hin. destruct Hin as [Hin|[<-|[]]]; auto.
Qed.

(** *** The pages of a list *)

Lemma firstn_plus {A} (a b : nat) (l : list A) :
  firstn (a + b) l = (firstn a l ++ firstn b (skipn a l))%list.
Proof.
  revert l. induction a as [|a IH]; intros [|x l]; simpl; auto.
  - destruct b; reflexivity.
  - rewrite IH. reflexivity.
Qed.

(** Consecutive windows of width [w] put end to end. *)
Lemma concat_windows {A} (l : list A) (w k : nat) :
  List.concat (map (fun i => firstn w (skipn (i * w) l)) (seq 0 k)) = firstn (k * w) l.
Proof.
  induction k as [|k IH]; [reflexivity|].
  rewrite seq_S, map_app, concat_app, IH. simpl.
  rewrite app_nil_r, (Nat.add_comm w (k * w)), firstn_plus. reflexivity.
Qed.

Lemma Forall2_In_r {A B} (R : A -> B -> Prop) la lb :
  Forall2 R la lb -> Forall2 (fun a b => R a b /\ In b lb) la lb.
Proof.
  induction 1 as [|a b la lb HR _ IH]; constructor.
  - split; [exact HR|left; reflexivity].
  - eapply Forall2_impl; [|exact IH].
    intros a' b' [H1 H2]. split; [exact H1|right; exact H2].
Qed.

Lemma Forall2_map_eq {A B C} (f : A -> C) (g : B -> C) la lb :
  Forall2 (fun a b => f a = g b) la lb -> map f la = map g lb.
Proof.
  induction 1; simpl; congruence.
Qed.

Lemma insert_length spec x l : List.length (insert spec x l) = S (List.length l).
Proof.
  induction l as [|y l IH]; simpl; [reflexivity|].
  destruct (task_leb spec x y); simpl; auto.
Qed.

Lemma sort_tasks_length spec l : List.length (sort_tasks spec l) = List.length l.
Proof.
  induction l as [|x l IH]; simpl; [reflexivity|].
  rewrite insert_length, IH. reflexivity.
Qed.

Section PageProperties.
Context {engine : RegexEngine}.

(** X13.  For a list request without search term, with a sort that is absent
    or names one path of a task and orders the caller's matching tasks
    without ties, and with page and limit absent or integers from 1 on whose
    product is at most 2^53: a page of GET /api/tasks holds at most limit
    tasks, those that follow the first (page - 1) * limit of the matching
    tasks in the order of the sort.  totalItems counts all the matching
    tasks, whatever the page, and a page beyond the last is an empty list
    with status 200. *)
Theorem list_page_is_a_window req db uid p l :
  search_truthy req = false ->
  castObjectId (user_userId req) = Some uid ->
  sorts_by_path req ->
  no_ties (sort_of req) (filter (matches uid (built_filter req)) (tasks db)) ->
  integer_param (q_page (query req)) 1 p ->
  integer_param (q_limit (query req)) 10 l ->
  1 <= p -> 1 <= l -> p * l <= 2 ^ 53 ->
  exists listed cp tp,
    get_api_tasks req db
    = (Ok (mkResponse 200
             (ListBody listed cp tp (List.length (sorted_matching req uid db)))), db) /\
    listed = firstn (Z.to_nat l)
               (skipn (Z.to_nat ((p - 1) * l)) (sorted_matching req uid db)) /\
    Z.of_nat (List.length listed) <= l /\
    (Z.of_nat (List.length (sorted_matching req uid db)) <= (p - 1) * l -> listed = []).
Proof.
  intros Hs Huid Hsort _ Hp Hl Hp1 Hl1 Hpl.
  rewrite (get_api_tasks_page req db uid p l Hs Huid Hsort Hp Hl Hp1 Hl1 Hpl).
  unfold list_body, sorted_matching. rewrite sort_tasks_length.
  eexists. eexists. eexists. split; [reflexivity|]. split; [reflexivity|]. split.
  - pose proof (firstn_le_length (Z.to_nat l)
                  (skipn (Z.to_nat ((p - 1) * l))
                     (sort_tasks (sort_of req)
                        (filter (matches uid (built_filter req)) (tasks db))))).
    lia.
  - intros Hlast. rewrite skipn_all2; [destruct (Z.to_nat l); reflexivity|].
    rewrite sort_tasks_length in *. lia.
Qed.

(** X14.  Under the same conditions on the sort, walking the pages 1, 2,
    ..., k of a list with the same limit, sort and status returns every
    matching task of the caller once, in the order of the sort, as soon as
    k * limit reaches the number of matching tasks (so for k = totalPages);
    k * limit is at most 2^53. *)
Theorem pages_cover_the_list req db uid l k pages :
  search_truthy req = false ->
  castObjectId (user_userId req) = Some uid ->
  sorts_by_path req ->
  no_ties (sort_of req) (filter (matches uid (built_filter req)) (tasks db)) ->
  integer_param (q_limit (query req)) 10 l ->
  1 <= l ->
  Z.of_nat k * l <= 2 ^ 53 ->
  Forall2 (fun page i => numeral (trim page) = Some (Z.of_nat (S i))) pages (seq 0 k) ->
  Z.of_nat (List.length (sorted_matching req uid db)) <= Z.of_nat k * l ->
  List.concat (map (fun page => listed_of (get_api_tasks (on_page page req) db)) pages)
  = sorted_matching req uid db.
Proof.
  intros Hs Huid Hsort _ Hl Hl1 Hkl Hpages Hk.
  rewrite (Forall2_map_eq _
             (fun i => firstn (Z.to_nat l)
                         (skipn (i * Z.to_nat l) (sorted_matching req uid db)))
             pages (seq 0 k)).
  - rewrite concat_windows. apply firstn_all2. nia.
  - eapply Forall2_impl; [|exact (Forall2_In_r _ _ _ Hpages)].
    intros page i [Hpage Hi]. cbv beta in Hpage. apply in_seq in Hi.
    rewrite (get_api_tasks_page (on_page page req) db uid (Z.of_nat (S i)) l);
      try assumption; try lia; [|nia].
    unfold listed_of, list_body, sorted_matching. cbn [res_body].
    change (sort_of (on_page page req)) with (sort_of req).
    change (built_filter (on_page page req)) with (built_filter req).
    replace (Z.to_nat ((Z.of_nat (S i) - 1) * l)) with (i * Z.to_nat l)%nat by nia.
    reflexivity.
Qed.

End PageProperties.

Lemma list_page_is_a_window_witness :
  exists listed cp tp,
    get_api_tasks (engine := literal_engine)
      (mkRequest alice "" (mkQueryString None (Some "2") (Some "1") None None) [] None)
      busy_db
    = (Ok (mkResponse 200
             (ListBody listed cp tp
                (List.length
                   (sorted_matching (engine := literal_engine)
                      (mkRequest alice ""
                         (mkQueryString None (Some "2") (Some "1") None None) [] None)
                      alice_id busy_db)))),
       busy_db) /\
    listed = firstn (Z.to_nat 1)
               (skipn (Z.to_nat ((2 - 1) * 1))
                  (sorted_matching (engine := literal_engine)
                     (mkRequest alice ""
                        (mkQueryString None (Some "2") (Some "1") None None) [] None)
                     alice_id busy_db)) /\
    Z.of_nat (List.length listed) <= 1 /\
    (Z.of_nat
       (List.length
          (sorted_matching (engine := literal_engine)
             (mkRequest alice ""
                (mkQueryString None (Some "2") (Some "1") None None) [] None)
             alice_id busy_db)) <= (2 - 1) * 1 ->
     listed = []).
Proof.
  apply (list_page_is_a_window (engine := literal_engine)
           (mkRequest alice "" (mkQueryString None (Some "2") (Some "1") None None)
              [] None)
           busy_db alice_id 2 1); try reflexivity; try lia.
  intros a b Ha Hb.
  destruct Ha as [<-|[<-|[]]]; destruct Hb as [<-|[<-|[]]]; intros H;
    try reflexivity; discriminate H.
Defined.

Lemma pages_cover_the_list_witness :
  List.concat
    (map (fun page =>
            listed_of
              (get_api_tasks (engine := literal_engine)
                 (on_page page
                    (mkRequest alice "" (mkQueryString None None (Some "1") None None)
                       [] None))
                 busy_db))
       ["1"; "2"])
  = [report; call].
Proof.
  apply (pages_cover_the_list (engine := literal_engine)
           (mkRequest alice "" (mkQueryString None None (Some "1") None None) [] None)
           busy_db alice_id 1 2 ["1"; "2"]).
  - reflexivity.
  - reflexivity.
  - exact I.
  - intros a b Ha Hb.
    destruct Ha as [<-|[<-|[]]]; destruct Hb as [<-|[<-|[]]]; intros H;
      try reflexivity; discriminate H.
  - reflexivity.
  - lia.
  - lia.
  - repeat constructor.
  - simpl. lia.
Defined.

(** *** The order and the filter of a list *)

Lemma StronglySorted_skipn {A} (R : A -> A -> Prop) n l :
  StronglySorted R l -> StronglySorted R (skipn n l).
Proof.
  revert l. induction n as [|n IH]; intros l Hl; [exact Hl|].
  destruct l as [|x l]; [exact Hl|].
  simpl. apply IH. apply StronglySorted_inv in Hl. tauto.
Qed.

Lemma StronglySorted_firstn {A} (R : A -> A -> Prop) n l :
  StronglySorted R l -> StronglySorted R (firstn n l).
Proof.
  revert l. induction n as [|n IH]; intros l Hl; [constructor|].
  destruct l as [|x l]; [constructor|].
  apply StronglySorted_inv in Hl. destruct Hl as [Hl Hx].
  simpl. constructor; [auto|].
  apply Forall_forall. intros y Hy. rewrite Forall_forall in Hx.
  apply Hx. eapply firstn_In. exact Hy.
Qed.

Section SortedBy.
Variable spec : list (string * bool).
Variable R : Task -> Task -> Prop.
Hypothesis leb_R : forall a b, task_leb spec a b = true <-> R a b.
Hypothesis R_total : forall a b, R a b \/ R b a.
Hypothesis R_trans : forall a b c, R a b -> R b c -> R a c.

Lemma insert_sorted x l :
  StronglySorted R l -> StronglySorted R (insert spec x l).
Proof.
  induction l as [|y l IH]; intros Hl; simpl.
  - constructor; constructor.
  - apply StronglySorted_inv in Hl. destruct Hl as [Hl Hy].
    destruct (task_leb spec x y) eqn:Hxy.
    + apply leb_R in Hxy. constructor; [constructor; assumption|].
      constructor; [exact Hxy|].
      apply Forall_forall. intros z Hz. rewrite Forall_forall in Hy. eauto.
    + assert (Hyx : R y x).
      { destruct (R_total x y) as [H|H]; [|exact H].
        apply leb_R in H. congruence. }
      constructor; [auto|].
      apply Forall_forall. intros z Hz. apply insert_In in Hz.
      destruct Hz as [->|Hz]; [exact Hyx|].
      rewrite Forall_forall in Hy. auto.
Qed.

Lemma sort_tasks_sorted l : StronglySorted R (sort_tasks spec l).
Proof.
  induction l as [|x l IH]; simpl; [constructor|].
  apply insert_sorted. exact IH.
Qed.

End SortedBy.

Lemma sort_oldest_first l :
  StronglySorted oldest_first (sort_tasks (sort_spec "createdAt") l).
Proof.
  apply sort_tasks_sorted; unfold oldest_first.
  - intros a b. unfold task_leb. simpl.
    destruct (Z.compare_spec (createdAt a) (createdAt b)); split; intros H0;
      try reflexivity; try discriminate; lia.
  - intros a b. lia.
  - intros a b c. lia.
Qed.

Lemma sort_newest_first l :
  StronglySorted newest_first (sort_tasks (sort_spec "-createdAt") l).
Proof.
  apply sort_tasks_sorted; unfold newest_first.
  - intros a b. unfold task_leb. simpl.
    destruct (Z.compare_spec (createdAt a) (createdAt b)); simpl; split; intros H0;
      try reflexivity; try discriminate; lia.
  - intros a b. lia.
  - intros a b c. lia.
Qed.

Lemma apply_skip_sorted (R : Task -> Task -> Prop) o l l' :
  apply_skip o l = Ok l' -> StronglySorted R l -> StronglySorted R l'.
Proof.
  unfold apply_skip. destruct o as [n|].
  - destruct (0 <=? safeNumberLong n); [|discriminate].
    intros [= <-]. apply StronglySorted_skipn.
  - intros [= <-]. auto.
Qed.

Lemma apply_limit_sorted (R : Task -> Task -> Prop) o l l' :
  apply_limit o l = Ok l' -> StronglySorted R l -> StronglySorted R l'.
Proof.
  unfold apply_limit. destruct o as [n|]; intros [= <-]; auto.
  destruct (_ =? 0); auto. apply StronglySorted_firstn.
Qed.

Section Order.
Context {engine : RegexEngine}.

Lemma Query_exec_sorted (R : Task -> Task -> Prop) q db l db' s :
  Query_exec q db = (Ok l, db') ->
  o_sort q = Some (VStr s) ->
  (forall l0, StronglySorted R (sort_tasks (sort_spec s) l0)) ->
  StronglySorted R l.
Proof.
  unfold Query_exec, bind, lift, get_db, cast_id. intros H Hsort Hsorted.
  destruct (castObjectId (f_user (conditions q))) as [uid|]; [|discriminate].
  rewrite Hsort in H. cbn [apply_sort] in H.
  destruct (existsb _ (sort_spec s)); [discriminate|].
  destruct (apply_skip _ _) as [skipped|] eqn:Hskip; [|discriminate].
  destruct (apply_limit _ _) as [limited|] eqn:Hlimit; [|discriminate].
  injection H as <- _.
  apply (apply_limit_sorted _ _ _ _ Hlimit).
  apply (apply_skip_sorted _ _ _ _ Hskip).
  apply Hsorted.
Qed.

(** The tasks of a list response are what the query returned. *)
Lemma get_api_tasks_listed req db res db' listed cp tp n :
  get_api_tasks req db = (Ok res, db') ->
  res_body res = ListBody listed cp tp n ->
  Query_exec (list_query req) db = (Ok listed, db).
Proof.
  destruct (search_truthy req) eqn:Hs.
  - rewrite (get_api_tasks_search _ _ Hs). intros [= <- <-]. discriminate.
  - rewrite (get_api_tasks_no_search _ _ Hs).
    pose proof (Query_exec_db (list_query req) db) as Hq.
    destruct (Query_exec (list_query req) db) as [[l|e] db1]; simpl in Hq; subst db1;
      [|intros [= <- <-]; discriminate].
    destruct (Task_countDocuments (built_filter req) db) as [[total|e] db2];
      [|intros [= <- <-]; discriminate].
    intros [= <- <-]. unfold list_body. simpl. intros [= <- _ _ _]. reflexivity.
Qed.

(** X15.  Without a sort parameter (or with sort=createdAt) the listed tasks
    come oldest first; with sort=-createdAt they come newest first. *)
Theorem list_order_by_creation req db res db' listed cp tp n :
  get_api_tasks req db = (Ok res, db') ->
  res_body res = ListBody listed cp tp n ->
  (q_sort (query req) = None \/ q_sort (query req) = Some "createdAt" ->
   StronglySorted oldest_first listed)
  /\ (q_sort (query req) = Some "-createdAt" -> StronglySorted newest_first listed).
Proof.
  intros H Hbody.
  pose proof (get_api_tasks_listed _ _ _ _ _ _ _ _ H Hbody) as Hq.
  split.
  - intros Hsort.
    apply (Query_exec_sorted _ _ _ _ _ "createdAt" Hq); [|exact sort_oldest_first].
    unfold list_query. cbn [o_sort Query_limit Query_skip Query_sort].
    destruct Hsort as [->| ->]; reflexivity.
  - intros Hsort.
    apply (Query_exec_sorted _ _ _ _ _ "-createdAt" Hq); [|exact sort_newest_first].
    unfold list_query. cbn [o_sort Query_limit Query_skip Query_sort].
    rewrite Hsort. reflexivity.
Qed.

(** X16.  With a status parameter that is not empty, every listed task has
    that status, and totalItems counts the caller's stored tasks with that
    status; the parameter is not checked against the allowed states. *)
Theorem list_filters_by_status req db res db' listed cp tp n s uid :
  get_api_tasks req db = (Ok res, db') ->
  res_body res = ListBody listed cp tp n ->
  q_status (query req) = Some s ->
  s <> EmptyString ->
  castObjectId (user_userId req) = Some uid ->
  Forall (fun t => status t = Some s) listed /\
  n = List.length
        (filter (fun t => (N.eqb (user t) uid && option_eqb (status t) (Some s))%bool)
                (tasks db)).
Proof.
  intros H Hbody Hst Hne Huid.
  destruct (get_api_tasks_list _ _ _ _ _ _ _ _ H Hbody)
    as (_ & uid' & Huid' & Hin & Hn & _).
  assert (uid' = uid) by congruence. subst uid'.
  assert (Hf : built_filter req = mkFilter (user_userId req) (Some s) None).
  { unfold built_filter. rewrite Hst. destruct s; [contradiction|reflexivity]. }
  rewrite Hf in *. split.
  - apply Forall_forall. intros t Ht. destruct (Hin t Ht) as [_ Hm].
    unfold matches in Hm. cbn [f_status f_or] in Hm.
    rewrite andb_true_r in Hm. apply andb_prop in Hm. destruct Hm as [_ Hm].
    apply option_eqb_eq. exact Hm.
  - rewrite Hn. f_equal. apply filter_ext. intros t. unfold matches.
    cbn [f_status f_or]. apply andb_true_r.
Qed.

End Order.

Lemma list_order_by_creation_witness :
  StronglySorted oldest_first [report; call].
Proof.
  apply (proj1 (list_order_by_creation (engine := literal_engine)
                  (mkRequest alice "" no_query [] None) busy_db
                  (mkResponse 200 (ListBody [report; call] (Some 1%Q) (Some 1%Q) 2%nat))
                  busy_db [report; call] (Some 1%Q) (Some 1%Q) 2%nat eq_refl eq_refl)).
  left. reflexivity.
Defined.

Lemma list_filters_by_status_witness :
  Forall (fun t => status t = Some "Completed") [milk] /\
  1%nat = List.length
            (filter (fun t => (N.eqb (user t) bob_id
                               && option_eqb (status t) (Some "Completed"))%bool)
                    (tasks busy_db)).
Proof.
  apply (list_filters_by_status (engine := literal_engine)
           (mkRequest bob "" (mkQueryString None None None None (Some "Completed"))
              [] None)
           busy_db
           (mkResponse 200 (ListBody [milk] (Some 1%Q) (Some 1%Q) 1%nat))
           busy_db [milk] (Some 1%Q) (Some 1%Q) 1%nat "Completed" bob_id).
  - reflexivity.
  - reflexivity.
  - reflexivity.
  - discriminate.
  - reflexivity.
Defined.

(** *** Invariants and round trips *)

Lemma no_route_changes_an_owner_witness :
  In milk (tasks sample_db) \/ castObjectId alice = Some (user milk).
Proof.
  apply (proj2 (proj2 (proj2 (no_route_changes_an_owner
                                (mkRequest alice "" no_query
                                   [("title", JStr "Plan trip")] None)
                                sample_db))) milk).
  simpl. auto.
Defined.

(** X17.  Every route keeps the stored tasks valid for the schema: when each
    stored task has a title that is not empty and a status that is null or
    one of the three states, the same holds after any request. *)
Theorem routes_keep_tasks_valid {engine : RegexEngine} req db :
  valid_db db ->
  valid_db (snd (post_api_tasks req db)) /\
  valid_db (snd (get_api_tasks req db)) /\
  valid_db (snd (get_api_tasks_id req db)) /\
  valid_db (snd (put_api_tasks_id req db)) /\
  valid_db (snd (delete_api_tasks_id req db)) /\
  valid_db (snd (post_api_tasks_id_upload req db)).
Proof.
  intros Hvalid.
  destruct (routes_answer req db)
    as ((r1 & d1 & H1) & _ & _ & (r4 & d4 & H4) & (r5 & d5 & H5) & (r6 & d6 & H6)).
  rewrite get_api_tasks_db, H1, H4, H5, H6. simpl.
  repeat split; auto.
  - exact (post_preserves_valid_db _ _ _ _ Hvalid H1).
  - exact (put_preserves_valid_db _ _ _ _ Hvalid H4).
  - exact (delete_preserves_valid_db _ _ _ _ Hvalid H5).
  - exact (upload_preserves_valid_db _ _ _ _ Hvalid H6).
Qed.

Lemma routes_keep_tasks_valid_witness :
  valid_db (snd (put_api_tasks_id
                   (mkRequest bob report_id no_query
                      [("title", JStr "Write it"); ("status", JStr "Completed")] None)
                   sample_db)).
Proof.
  apply (proj1 (proj2 (proj2 (proj2 (routes_keep_tasks_valid (engine := literal_engine)
                                       (mkRequest bob report_id no_query
                                          [("title", JStr "Write it");
                                           ("status", JStr "Completed")] None)
                                       sample_db
                                       ltac:(repeat constructor)))))).
Defined.

Section RoundTrip.
Context {engine : RegexEngine}.

(** X18.  A task that POST /api/tasks has created counts in its owner's list
    and in nobody else's: for a list request without status filter,
    totalItems after the creation is one more than before when the caller is
    the creator, and the same when it is another user. *)
Theorem created_task_counts_for_its_owner
    reqA db resA db1 req r0 d0 l0 cp0 tp0 n0 r1 d1 l1 cp1 tp1 n1 :
  post_api_tasks reqA db = (Ok resA, db1) ->
  res_status resA = 201 ->
  get_api_tasks req db = (Ok r0, d0) ->
  res_body r0 = ListBody l0 cp0 tp0 n0 ->
  get_api_tasks req db1 = (Ok r1, d1) ->
  res_body r1 = ListBody l1 cp1 tp1 n1 ->
  q_status (query req) = None ->
  (castObjectId (user_userId reqA) = castObjectId (user_userId req) -> n1 = S n0) /\
  (castObjectId (user_userId reqA) <> castObjectId (user_userId req) -> n1 = n0).
Proof.
  intros HA H201 H0 Hb0 H1 Hb1 Hst.
  destruct (post_api_tasks_cases _ _ _ _ HA)
    as [(error & _ & -> & _) | [(error & _ & -> & _) | (t & _ & _ & Ht & _ & _ & Hu & _)]];
    try discriminate.
  destruct (get_api_tasks_list _ _ _ _ _ _ _ _ H0 Hb0) as (_ & uid & Huid & _ & -> & _).
  destruct (get_api_tasks_list _ _ _ _ _ _ _ _ H1 Hb1) as (_ & uid' & Huid' & _ & -> & _).
  assert (uid' = uid) by congruence. subst uid'.
  rewrite Ht, filter_app, length_app.
  assert (Hm : matches uid (built_filter req) t = N.eqb (user t) uid).
  { unfold built_filter. rewrite Hst. unfold matches. cbn [f_status f_or].
    rewrite !andb_true_r. reflexivity. }
  cbn [filter]. rewrite Hm. split.
  - intros Heq. replace (N.eqb (user t) uid) with true; [simpl; lia|].
    symmetry. apply N.eqb_eq. congruence.
  - intros Hne. replace (N.eqb (user t) uid) with false; [simpl; lia|].
    symmetry. apply N.eqb_neq. congruence.
Qed.

End RoundTrip.

Lemma created_task_counts_for_its_owner_witness :
  (castObjectId alice = castObjectId alice -> 2%nat = S 1%nat) /\
  (castObjectId alice <> castObjectId alice -> 2%nat = 1%nat).
Proof.
  apply (created_task_counts_for_its_owner (engine := literal_engine)
           (mkRequest alice "" no_query [("title", JStr "Plan trip")] None)
           sample_db
           (mkResponse 201
              (TaskBody (mkTask 3%N "Plan trip" None (Some "Pending") alice_id None
                                5000 5000)))
           (mkDb [report; milk;
                  mkTask 3%N "Plan trip" None (Some "Pending") alice_id None 5000 5000]
                 4%N 5000)
           (mkRequest alice "" no_query [] None)
           (mkResponse 200 (ListBody [report] (Some 1%Q) (Some 1%Q) 1%nat))
           sample_db [report] (Some 1%Q) (Some 1%Q) 1%nat
           (mkResponse 200
              (ListBody [report;
                         mkTask 3%N "Plan trip" None (Some "Pending") alice_id None
                                5000 5000]
                        (Some 1%Q) (Some 1%Q) 2%nat))
           (mkDb [report; milk;
                  mkTask 3%N "Plan trip" None (Some "Pending") alice_id None 5000 5000]
                 4%N 5000)
           [report;
            mkTask 3%N "Plan trip" None (Some "Pending") alice_id None 5000 5000]
           (Some 1%Q) (Some 1%Q) 2%nat); reflexivity.
Defined.
